(** * handler.py: the stream-processing pipeline

    A shallow embedding of [src/handler.py]: the two consume loops
    ([preload_history] and [consume_and_process]), the per-user bounded
    history ([user_history]), the mention trigger, the fan-out to the
    scoring service and the aggregation of its replies.

    Conventions of the embedding.
    - A Python [str] is the list of its code points ([pystr]).
    - A value produced by [json.loads] is a [json] term.
    - A Python dict is an insertion-ordered association list ([dict]);
      [user_history], whose order is never observed, is a [gmap].
    - Every interaction with the outside (clock, translation service,
      scoring service, producer) is answered by the [world] that comes with
      the record being processed.
    - What the process prints, which scoring calls it launches and what it
      publishes is collected, in program order, in the [trace].

    - A broker timestamp is an integer of 64 bits, in ms since the epoch.

    Left out: the start and stop of the consumers and of the producer, a
    failure of the consumer itself, and the line that [call_predict] prints
    with each reply (its place among the lines of concurrent calls is not
    fixed by the program). *)

From Stdlib Require Import ZArith String Ascii DecimalString.
From Stdlib Require DecimalZ.
From stdpp Require Import base option list gmap.

Local Open Scope Z_scope.
Set Warnings "-register-all".

(** ** Strings *)

Definition pystr : Type := list N.

(** The str with the given (Latin-1) characters. *)
Definition py (s : string) : pystr :=
  map N_of_ascii (list_ascii_of_string s).

(** [str(n)] for an int. *)
Definition str_of_int (z : Z) : pystr :=
  py (NilEmpty.string_of_int (Z.to_int z)).

(** [s.startswith(p)], returning the rest of [s] after [p]. *)
Fixpoint strip_prefix (p s : pystr) : option pystr :=
  match p, s with
  | [], _ => Some s
  | a :: p', b :: s' => if N.eqb a b then strip_prefix p' s' else None
  | _ :: _, [] => None
  end.

(** [p in s] for two strs: [p] starts at some position of [s]. *)
Fixpoint contains (p s : pystr) {struct s} : bool :=
  match strip_prefix p s with
  | Some _ => true
  | None => match s with
            | [] => false
            | _ :: s' => contains p s'
            end
  end.

(** The class [\s] of [re] on a str pattern: the code points for which
    [str.isspace] holds. *)
Definition is_space (c : N) : bool :=
  ((9 <=? c) && (c <=? 13) || (28 <=? c) && (c <=? 32)
   || (c =? 133) || (c =? 160) || (c =? 5760)
   || (8192 <=? c) && (c <=? 8202)
   || (c =? 8232) || (c =? 8233) || (c =? 8239) || (c =? 8287)
   || (c =? 12288))%N.

(** The longest match of [\s*] at the start of [s], removed. *)
Fixpoint skip_spaces (s : pystr) : pystr :=
  match s with
  | c :: s' => if is_space c then skip_spaces s' else s
  | [] => []
  end.

(** ** Configuration *)

Definition SRC_TOPIC : pystr := py "social-media-topic".
Definition RESULT_TOPIC : pystr := py "user-sentiment-topic".
Definition BOT_MENTION : pystr := py "@music_recommender_iss_bot".
Definition WATCH_CHAT_IDS : list Z := [-4714765877].
Definition maxlen : nat := 10.

(** ** Dicts *)

Definition dict (V : Type) : Type := list (pystr * V).

(** [d.get(k)] *)
Fixpoint dict_get {V} (d : dict V) (k : pystr) : option V :=
  match d with
  | [] => None
  | (k', v) :: d' => if decide (k = k') then Some v else dict_get d' k
  end.

(** [d[k] = v]: an existing key keeps its place, a new one goes last. *)
Fixpoint dict_set {V} (d : dict V) (k : pystr) (v : V) : dict V :=
  match d with
  | [] => [(k, v)]
  | (k', v') :: d' =>
      if decide (k = k') then (k, v) :: d' else (k', v') :: dict_set d' k v
  end.

(** The values of field [k] in the score maps of one trigger, in the order
    of the batch; a score map without the field gives none. *)
Definition field_values {V} (k : pystr) (results : list (dict V)) : list V :=
  omap (fun r => dict_get r k) results.

(** The keys of a dict are distinct. *)
Definition well_formed_dict {V} (d : dict V) : Prop := NoDup d.*1.

(** ** JSON values *)

(** A float is [m * 2^e], an infinity or a NaN. *)
Inductive pyfloat :=
| Finite (m e : Z)
| Inf (negative : bool)
| NaN.

Inductive json :=
| JNull
| JBool (b : bool)
| JInt (z : Z)
| JFloat (f : pyfloat)
| JStr (s : pystr)
| JArr (items : list json)
| JObj (members : dict json).

(** [f == n] for a float and an int (Python compares them exactly). *)
Definition float_eq_int (f : pyfloat) (n : Z) : bool :=
  match f with
  | Finite m e => if 0 <=? e then m * 2 ^ e =? n else m =? n * 2 ^ (- e)
  | _ => false
  end.

Definition is_None (v : json) : bool :=
  match v with JNull => true | _ => false end.

(** [isinstance(v, str)] *)
Definition isinstance_str (v : json) : bool :=
  match v with JStr _ => true | _ => false end.

(** The characters of a value that is known to be a str. *)
Definition str_value (v : json) : pystr :=
  match v with JStr s => s | _ => [] end.

(** ** Exceptions and replies *)

(** The exception classes that occur; all of them derive from
    [Exception]. *)
Inductive exn :=
| JSONDecodeError
| TypeError
| UnicodeDecodeError
| AttributeError
| ValueError
| OverflowError
| TranslateError
| ClientResponseError (status : Z)
| ClientConnectionError
| KafkaError.

Inductive reply (A : Type) :=
| Reply (a : A)
| Failure (e : exn).
Arguments Reply {A} a.
Arguments Failure {A} e.

(** [except (json.JSONDecodeError, TypeError)] *)
Definition except_JSONDecodeError_TypeError (e : exn) : bool :=
  match e with
  | JSONDecodeError | TypeError => true
  | _ => false
  end.

(** [v in WATCH_CHAT_IDS]: a list or a dict cannot be hashed; a number is
    found when it equals a member; nothing else equals an int. *)
Definition in_WATCH_CHAT_IDS (v : json) : reply bool :=
  match v with
  | JArr _ | JObj _ => Failure TypeError
  | JInt z => Reply (existsb (Z.eqb z) WATCH_CHAT_IDS)
  | JBool b => Reply (existsb (Z.eqb (if b then 1 else 0)) WATCH_CHAT_IDS)
  | JFloat f => Reply (existsb (float_eq_int f) WATCH_CHAT_IDS)
  | JNull | JStr _ => Reply false
  end.

(** ** The bounded window: [deque(maxlen=10)] *)

(** [d.append(x)]: the new element goes to the right end; a deque that has
    grown past [maxlen] loses its leftmost element. *)
Definition deque_append (d : list pystr) (x : pystr) : list pystr :=
  let d' := d ++ [x] in
  if (maxlen <? length d')%nat then tail d' else d'.

(** ** Removing the mention: [re.sub(rf'^{re.escape(BOT_MENTION)}\s*', '', m)]

    The pattern is anchored at the start of the string and cannot match the
    empty string, so it matches at most once: the mention at position 0 and
    all the white space after it. *)
Definition m_clean (m : pystr) : pystr :=
  match strip_prefix BOT_MENTION m with
  | Some rest => skip_spaces rest
  | None => m
  end.

(** ** The program, over the number type of the scores

    [num], [zero] and [add] are the numbers the scoring service returns,
    Python's [0] and [+] on them; [repr] is the text [str] gives for a
    float, a list or a dict. *)

Section Handler.

Context {num : Type}.
Variable zero : num.
Variable add : num -> num -> num.
Variable repr : json -> pystr.

(** [str(v)] *)
Definition py_str (v : json) : pystr :=
  match v with
  | JNull => py "None"
  | JBool true => py "True"
  | JBool false => py "False"
  | JInt z => str_of_int z
  | JStr s => s
  | JFloat _ | JArr _ | JObj _ => repr v
  end.

(** What the scoring service returns for one message. *)
Definition ScoreMap : Type := dict num.

(** A value of the published dict: a sum, or the user id. *)
Inductive aggval :=
| Num (n : num)
| Str (s : pystr).

(** *** The outside world, as seen while one record is processed

    The index given to the three services is the position of the calling
    [call_predict] among the calls launched by one [gather]. *)
Record world := {
  (** the clock read by [datetime.now()], in ms since the epoch *)
  now_ms : Z;
  (** the offset of the local time zone from UTC at an instant, in ms *)
  utcoffset_ms : Z -> Z;
  (** the exception that [datetime.now().astimezone()] raises, if it raises
      (a clock or a zone outside what [datetime] represents); when it
      returns, its value is the instant [now_ms] at the offset the zone has
      then *)
  clock_error : option exn;
  (** [translator.detect_language(text).get("language")] *)
  detect_language : nat -> pystr -> reply (option pystr);
  (** [translator.translate(text, ...).get("translatedText")] *)
  translate : nat -> pystr -> reply (option pystr);
  (** the POST to [PREDICT_URL], [raise_for_status] and [resp.json()] *)
  post_predict : nat -> pystr -> reply ScoreMap;
  (** [prod.send_and_wait(topic, json.dumps(agg).encode("utf-8"))] *)
  send_and_wait : pystr -> dict aggval -> reply unit
}.

(** What [json.loads(msg.value.decode("utf-8"))] does on the bytes of a
    record: a value, or an exception. For instance
    [b'{"chat_id": 1}'] gives [Loaded (JObj [("chat_id", JInt 1)])],
    [b'not json'] gives [Raised JSONDecodeError],
    [b'\xff'] gives [Raised UnicodeDecodeError] (from [decode]) and
    a record without value ([None]) gives [Raised AttributeError]. *)
Inductive payload :=
| Loaded (rec : json)
| Raised (e : exn).

Record ConsumerRecord := {
  value : payload;
  timestamp : Z
}.

Record delivery := {
  msg : ConsumerRecord;
  env : world
}.

(** *** Trace and state *)

Inductive output :=
| LogIgnoredNonJson
| LogPreloaded (user_id text : pystr)
| LogIgnoreInvalid (rec : json)
| LogHistoryPreloaded
| LogRealtimeStarted
| LogTriggered (user_id : pystr) (clean_batch : list pystr)
| CallPredict (text : pystr)
| LogPredictionFailed (e : exn)
| Send (topic : pystr) (agg : dict aggval)
| LogSent (user_id : pystr) (agg : dict aggval).

Record machine := {
  user_history : gmap pystr (list pystr);
  trace : list output
}.

(** The state at start-up: no window, nothing printed yet. *)
Definition empty_machine : machine := {| user_history := ∅; trace := [] |}.

(** How the body of a loop ends: the loop goes on with the next record, or
    an exception leaves the loop. *)
Inductive flow :=
| Next
| Propagate (e : exn).

Definition emit (o : list output) (σ : machine) : machine :=
  {| user_history := user_history σ; trace := trace σ ++ o |}.

(** [user_history[u]] on the defaultdict: a missing key is first bound to
    an empty deque. *)
Definition getitem (u : pystr) (h : gmap pystr (list pystr))
  : list pystr * gmap pystr (list pystr) :=
  match h !! u with
  | Some d => (d, h)
  | None => ([], <[u := []]> h)
  end.

(** [user_history[u].append(text)] *)
Definition history_append (u text : pystr) (σ : machine) : machine :=
  let '(d, h) := getitem u (user_history σ) in
  {| user_history := <[u := deque_append d text]> h; trace := trace σ |}.

(** *** [is_same_local_day] *)

(** The instants that [datetime] represents, years 1 to 9999: from
    0001-01-01T00:00:00 on and before 10000-01-01T00:00:00, in ms since the
    epoch. *)
Definition MIN_MS : Z := -62135596800000.
Definition MAX_MS : Z := 253402300800000.

Definition representable (t_ms : Z) : bool :=
  (MIN_MS <=? t_ms) && (t_ms <? MAX_MS).

(** The number of the local calendar day of an instant; two instants have
    the same (year, month, day) exactly when they have the same number. *)
Definition local_day (w : world) (t_ms : Z) : Z :=
  (t_ms + utcoffset_ms w t_ms) / 86400000.

(** [datetime.fromtimestamp(ts_ms / 1000, tz=timezone.utc).astimezone()],
    as the day of the result. [fromtimestamp] raises [ValueError] for an
    instant outside years 1 to 9999 (this is the exception for every
    timestamp of 64 bits, which is what a broker sends); [astimezone] builds
    the local zone from the offset at that instant, which must lie strictly
    between -24 h and 24 h, and raises [OverflowError] when the local time
    falls outside years 1 to 9999. *)
Definition local_date_of_timestamp (w : world) (ts_ms : Z) : reply Z :=
  let offset := utcoffset_ms w ts_ms in
  if negb (representable ts_ms) then Failure ValueError
  else if negb ((-86400000 <? offset) && (offset <? 86400000))
  then Failure ValueError
  else if negb (representable (ts_ms + offset)) then Failure OverflowError
  else Reply (local_day w ts_ms).

(** [datetime.now().astimezone()], as the day of the result. *)
Definition local_date_of_now (w : world) : reply Z :=
  match clock_error w with
  | Some e => Failure e
  | None => Reply (local_day w (now_ms w))
  end.

Definition is_same_local_day (w : world) (ts_ms : Z) : reply bool :=
  match local_date_of_timestamp w ts_ms with
  | Failure e => Failure e
  | Reply dt =>
      match local_date_of_now w with
      | Failure e => Failure e
      | Reply now => Reply (dt =? now)
      end
  end.

(** *** [translate_to_english] and [call_predict] *)

Definition translate_to_english (w : world) (i : nat) (text : pystr)
  : reply pystr :=
  match detect_language w i text with
  | Failure e => Failure e
  | Reply lang =>
      if negb (bool_decide (lang = Some (py "en"))) then
        match translate w i text with
        | Failure e => Failure e
        | Reply tr => Reply (default [] tr)
        end
      else Reply text
  end.

Definition call_predict (w : world) (i : nat) (text : pystr)
  : reply ScoreMap :=
  match translate_to_english w i text with
  | Failure e => Failure e
  | Reply en => post_predict w i en
  end.

(** [asyncio.gather] over [call_predict(t) for t in batch]: the results in the
    order of the batch when every call returns, an exception as soon as one
    call raises. (When several calls raise, the one that surfaces is the
    first to complete; the embedding takes the first of the batch.) *)
Fixpoint gather (w : world) (i : nat) (batch : list pystr)
  : reply (list ScoreMap) :=
  match batch with
  | [] => Reply []
  | t :: batch' =>
      match call_predict w i t, gather w (S i) batch' with
      | Failure e, _ => Failure e
      | Reply _, Failure e => Failure e
      | Reply r, Reply rs => Reply (r :: rs)
      end
  end.

(** *** Aggregation *)

(** [agg[k] = agg.get(k, 0) + v] *)
Definition agg_add (agg : dict num) (kv : pystr * num) : dict num :=
  dict_set agg kv.1 (add (default zero (dict_get agg kv.1)) kv.2).

(** The two nested loops over [results] and [r.items()]. *)
Definition aggregate (results : list ScoreMap) : dict num :=
  fold_left (fun agg r => fold_left agg_add r agg) results [].

(** The dict that is published: the sums, then [agg["user_id"] = user_id]. *)
Definition aggregate_result (results : list ScoreMap) (user_id : pystr)
  : dict aggval :=
  dict_set (map (fun kv => (kv.1, Num kv.2)) (aggregate results))
           (py "user_id") (Str user_id).

(** *** The three fields read from a record

    [rec.get("chat_id")], [str(rec.get("user_id"))] and
    [rec.get("message", "")]. *)
Definition rec_chat_id (rec : dict json) : json :=
  default JNull (dict_get rec (py "chat_id")).

Definition rec_user_id (rec : dict json) : pystr :=
  py_str (default JNull (dict_get rec (py "user_id"))).

Definition rec_text (rec : dict json) : json :=
  default (JStr []) (dict_get rec (py "message")).

(** *** Loops *)

(** A [for] loop whose body may raise: the body runs on each element in
    turn until an exception leaves the loop. *)
Fixpoint for_each {A} (body : A -> machine -> machine * flow)
    (l : list A) (σ : machine) : machine * flow :=
  match l with
  | [] => (σ, Next)
  | a :: l' =>
      match body a σ with
      | (σ', Next) => for_each body l' σ'
      | (σ', Propagate e) => (σ', Propagate e)
      end
  end.

(** *** [preload_history] *)

(** The body of the inner loop, for one record of a batch. *)
Definition preload_record (d : delivery) (σ : machine) : machine * flow :=
  match value (msg d) with
  | Raised e =>
      if except_JSONDecodeError_TypeError e
      then (emit [LogIgnoredNonJson] σ, Next)
      else (σ, Propagate e)
  | Loaded (JObj rec) =>
      let chat_id := rec_chat_id rec in
      let user_id := rec_user_id rec in
      let text := rec_text rec in
      let ts_ms := timestamp (msg d) in
      match in_WATCH_CHAT_IDS chat_id with
      | Failure e => (σ, Propagate e)
      | Reply watched =>
          if watched
             && negb (is_None (JStr user_id))
             && isinstance_str text
          then
            match is_same_local_day (env d) ts_ms with
            | Failure e => (σ, Propagate e)
            | Reply true =>
                (emit [LogPreloaded user_id (str_value text)]
                   (history_append user_id (str_value text) σ), Next)
            | Reply false => (emit [LogIgnoreInvalid (JObj rec)] σ, Next)
            end
          else (emit [LogIgnoreInvalid (JObj rec)] σ, Next)
      end
  | Loaded _ => (σ, Propagate AttributeError)
  end.

(** What one [getmany] returns: the records of each partition. *)
Definition batch : Type := list (nat * list delivery).

(** [any(batch.values())] *)
Definition any_values (b : batch) : bool :=
  existsb (fun tp_msgs => negb (bool_decide (tp_msgs.2 = []))) b.

(** The [while True] loop over the successive results of [getmany]; the
    source has delivered [polls] and nothing after them. *)
Fixpoint preload_history (polls : list batch) (σ : machine)
  : machine * flow :=
  match polls with
  | [] => (emit [LogHistoryPreloaded] σ, Next)
  | b :: polls' =>
      if negb (any_values b) then (emit [LogHistoryPreloaded] σ, Next)
      else
        match for_each (fun tp_msgs => for_each preload_record tp_msgs.2) b σ with
        | (σ', Next) => preload_history polls' σ'
        | (σ', Propagate e) => (σ', Propagate e)
        end
  end.

(** *** [consume_and_process] *)

(** The trigger pipeline: the body of [if BOT_MENTION in text]. *)
Definition trigger (w : world) (user_id : pystr) (σ : machine)
  : machine * flow :=
  let '(batch, h) := getitem user_id (user_history σ) in
  let clean_batch := map m_clean batch in
  let σ1 := {| user_history := h;
               trace := trace σ ++ LogTriggered user_id clean_batch
                                :: map CallPredict clean_batch |} in
  match gather w 0 clean_batch with
  | Failure e => (emit [LogPredictionFailed e] σ1, Next)
  | Reply results =>
      let agg := aggregate_result results user_id in
      let σ2 := emit [Send RESULT_TOPIC agg] σ1 in
      match send_and_wait w RESULT_TOPIC agg with
      | Failure e => (σ2, Propagate e)
      | Reply _ => (emit [LogSent user_id agg] σ2, Next)
      end
  end.

(** The body of [async for msg in cons]. *)
Definition process (d : delivery) (σ : machine) : machine * flow :=
  match value (msg d) with
  | Raised e =>
      if except_JSONDecodeError_TypeError e
      then (emit [LogIgnoredNonJson] σ, Next)
      else (σ, Propagate e)
  | Loaded (JObj rec) =>
      let chat_id := rec_chat_id rec in
      let user_id := rec_user_id rec in
      let text := rec_text rec in
      let ts_ms := timestamp (msg d) in
      match in_WATCH_CHAT_IDS chat_id with
      | Failure e => (σ, Propagate e)
      | Reply watched =>
          if negb watched
             || is_None (JStr user_id)
             || negb (isinstance_str text)
          then (σ, Next)
          else
            match is_same_local_day (env d) ts_ms with
            | Failure e => (σ, Propagate e)
            | Reply same_day =>
                let σ1 := if same_day
                          then history_append user_id (str_value text) σ
                          else σ in
                if contains BOT_MENTION (str_value text)
                then trigger (env d) user_id σ1
                else (σ1, Next)
            end
      end
  | Loaded _ => (σ, Propagate AttributeError)
  end.

(** The live loop on the records [evs] that arrive. *)
Definition consume_and_process (evs : list delivery) (σ : machine)
  : machine * flow :=
  for_each process evs (emit [LogRealtimeStarted] σ).

(** [main]: the backfill, then the live loop, from an empty history. *)
Definition main (polls : list batch) (evs : list delivery) : machine * flow :=
  match preload_history polls empty_machine with
  | (σ, Next) => consume_and_process evs σ
  | (σ, Propagate e) => (σ, Propagate e)
  end.

(** A sequence of admissions [(user_id, text)], performed in order. *)
Definition admit_all (adm : list (pystr * pystr)) (σ : machine) : machine :=
  fold_left (fun σ ut => history_append ut.1 ut.2 σ) adm σ.

End Handler.

(** ** Concrete instances used in the examples: integer scores, a process
    running in UTC, services that answer. *)

Definition repr_opaque (v : json) : pystr := py "<repr>".

Definition quiet_world (now : Z) : @world Z :=
  {| now_ms := now;
     utcoffset_ms := fun _ => 0;
     clock_error := None;
     detect_language := fun _ _ => Reply (Some (py "en"));
     translate := fun _ _ => Reply None;
     post_predict := fun _ _ => Reply [(py "pos", 1)];
     send_and_wait := fun _ _ => Reply tt |}.

(** The same world with a scoring service that answers 500. *)
Definition failing_world (now : Z) : @world Z :=
  {| now_ms := now;
     utcoffset_ms := fun _ => 0;
     clock_error := None;
     detect_language := fun _ _ => Reply (Some (py "en"));
     translate := fun _ _ => Reply None;
     post_predict := fun _ _ => Failure (ClientResponseError 500);
     send_and_wait := fun _ _ => Reply tt |}.

Definition deliver (w : @world Z) (p : payload) (ts : Z) : delivery :=
  {| msg := {| value := p; timestamp := ts |}; env := w |}.

Definition init : @machine Z := empty_machine.

(** The texts admitted for user [u] by a sequence of admissions. *)
Definition texts_of (u : pystr) (adm : list (pystr * pystr)) : list pystr :=
  (filter (fun ut => ut.1 = u) adm).*2.

(** One day, in ms. *)
Definition day_ms : Z := 86400000.

(** 2025-11-03 10:00:00 UTC. *)
Definition now0 : Z := 1762164000000.

(** [{"chat_id": -4714765877, "message": "hi"}] *)
Definition rec_no_user_id : dict json :=
  [(py "chat_id", JInt (-4714765877)); (py "message", JStr (py "hi"))].

(** [{"chat_id": -4714765877, "user_id": 42}] *)
Definition rec_no_message : dict json :=
  [(py "chat_id", JInt (-4714765877)); (py "user_id", JInt 42)].

(** [{"chat_id": -4714765877, "user_id": 42,
      "message": "@music_recommender_iss_bot rate these"}] *)
Definition rec_mention : dict json :=
  [(py "chat_id", JInt (-4714765877)); (py "user_id", JInt 42);
   (py "message", JStr (py "@music_recommender_iss_bot rate these"))].

(** The two score maps [{"pos": 1, "neu": 2}] and
    [{"pos": 3, "energy": 5}]. *)
Definition two_score_maps : list (dict Z) :=
  [[(py "pos", 1); (py "neu", 2)]; [(py "pos", 3); (py "energy", 5)]].

(** The records above as deliveries, received at [now0] by a process whose
    collaborators answer. *)
Definition d_no_user_id : delivery :=
  deliver (quiet_world now0) (Loaded (JObj rec_no_user_id)) now0.

Definition d_no_message : delivery :=
  deliver (quiet_world now0) (Loaded (JObj rec_no_message)) now0.

Definition d_mention_today : delivery :=
  deliver (quiet_world now0) (Loaded (JObj rec_mention)) now0.

(** The same record, stamped one day earlier. *)
Definition d_mention_yesterday : delivery :=
  deliver (quiet_world now0) (Loaded (JObj rec_mention)) (now0 - day_ms).

(** The same record, while the scoring service answers 500. *)
Definition d_mention_failing : delivery :=
  deliver (failing_world now0) (Loaded (JObj rec_mention)) now0.

(** The same record, stamped 10000-01-01T00:00:00Z. *)
Definition d_mention_year_10000 : delivery :=
  deliver (quiet_world now0) (Loaded (JObj rec_mention)) MAX_MS.

(** A record whose bytes are not UTF-8, such as [b'\xff']. *)
Definition d_not_utf8 : delivery :=
  deliver (quiet_world now0) (Raised UnicodeDecodeError) now0.

(** The [n]-th plain message of user 42 in the watched chat:
    [{"chat_id": -4714765877, "user_id": 42, "message": "m<n>"}]. *)
Definition plain_text (n : nat) : pystr := py "m" ++ str_of_int (Z.of_nat n).

Definition d_plain (n : nat) : delivery :=
  deliver (quiet_world now0)
    (Loaded (JObj [(py "chat_id", JInt (-4714765877)); (py "user_id", JInt 42);
                   (py "message", JStr (plain_text n))])) now0.

Definition mention_text : pystr := py "@music_recommender_iss_bot rate these".

(** ** Start-up: [get_msk_connection_info] *)

(** [s.split(sep)] for a separator of one character: the pieces of [s]
    between the occurrences of [sep], empty pieces included. *)
Fixpoint split (sep : N) (s : pystr) : list pystr :=
  match s with
  | [] => [[]]
  | c :: s' =>
      if N.eqb c sep then [] :: split sep s'
      else match split sep s' with
           | piece :: pieces => (c :: piece) :: pieces
           | [] => [[c]]
           end
  end.

(** [sep.join(pieces)], the inverse the properties of [split] are stated
    with. *)
Fixpoint join (sep : N) (pieces : list pystr) : pystr :=
  match pieces with
  | [] => []
  | piece :: rest =>
      match rest with
      | [] => piece
      | _ :: _ => piece ++ sep :: join sep rest
      end
  end.

(** The comma. *)
Definition comma : N := 44%N.

(** What start-up can raise: a [KeyError] of a subscript, or one of the
    exceptions above. *)
Inductive startup_exn :=
| KeyError (key : pystr)
| Raise (e : exn).

(** [v[k]] for a str [k]: the entry of a dict; any other JSON value raises
    [TypeError]. *)
Definition subscript (v : json) (k : pystr) : startup_exn + json :=
  match v with
  | JObj d =>
      match dict_get d k with
      | Some x => inr x
      | None => inl (KeyError k)
      end
  | _ => inl (Raise TypeError)
  end.

(** The two AWS services asked at start-up. *)
Record aws := {
  (** [sm.get_secret_value(SecretId=secret_name)]: the call may raise; the
      response may lack "SecretString"; otherwise, what [json.loads] does
      on that string *)
  get_secret_value : reply (option payload);
  (** [msk.get_bootstrap_brokers(ClusterArn=cluster_arn)]: the call may
      raise; otherwise the entries of the response, which are strs *)
  get_bootstrap_brokers : reply (dict pystr)
}.

Definition get_msk_connection_info (a : aws)
  : startup_exn + (json * json * list pystr) :=
  match get_secret_value a with
  | Failure e => inl (Raise e)
  | Reply None => inl (KeyError (py "SecretString"))
  | Reply (Some (Raised e)) => inl (Raise e)
  | Reply (Some (Loaded creds)) =>
      match subscript creds (py "username") with
      | inl e => inl e
      | inr username =>
          match subscript creds (py "password") with
          | inl e => inl e
          | inr password =>
              match get_bootstrap_brokers a with
              | Failure e => inl (Raise e)
              | Reply resp =>
                  match dict_get resp (py "BootstrapBrokerStringPublicSaslScram") with
                  | None =>
                      inl (KeyError (py "BootstrapBrokerStringPublicSaslScram"))
                  | Some s => inr (username, password, split comma s)
                  end
              end
          end
      end
  end.

(** ** Vocabulary of the properties *)

(** Every window holds at most [maxlen] texts. *)
Definition bounded (h : gmap pystr (list pystr)) : Prop :=
  map_Forall (fun _ d => (length d ≤ maxlen)%nat) h.

(** The lines the backfill prints. *)
Definition is_backfill_log {num} (o : @output num) : bool :=
  match o with
  | LogIgnoredNonJson | LogPreloaded _ _ | LogIgnoreInvalid _
  | LogHistoryPreloaded => true
  | _ => false
  end.

Definition is_CallPredict {num} (o : @output num) : bool :=
  match o with CallPredict _ => true | _ => false end.

(** The number of scoring calls launched in a stretch of the trace. *)
Definition calls_launched {num} (tr : list (@output num)) : nat :=
  length (filter (fun o => is_CallPredict o = true) tr).

(** A published record goes to [RESULT_TOPIC] and names a user. *)
Definition well_published {num} (o : @output num) : Prop :=
  match o with
  | Send topic agg =>
      topic = RESULT_TOPIC
      ∧ ∃ u, dict_get agg (py "user_id") = Some (Str u)
  | _ => True
  end.

(** [σ'] continues [σ]: its trace is the trace of [σ] followed by events
    that all satisfy [P]. *)
Definition extends_by {num} (P : @output num → Prop) (σ σ' : @machine num)
  : Prop :=
  ∃ new, trace σ' = trace σ ++ new ∧ Forall P new.

(** The records that neither loop can raise on: a payload that fails with
    an exception the handler catches, or a JSON object whose chat_id can be
    hashed and on which, if the day test is reached (the chat is watched
    and the message is a str), the day test returns. *)
Definition harmless {num} (d : @delivery num) : bool :=
  match value (msg d) with
  | Raised e => except_JSONDecodeError_TypeError e
  | Loaded (JObj rec) =>
      match in_WATCH_CHAT_IDS (rec_chat_id rec) with
      | Reply watched =>
          if watched && isinstance_str (rec_text rec)
          then match is_same_local_day (env d) (timestamp (msg d)) with
               | Reply _ => true
               | Failure _ => false
               end
          else true
      | Failure _ => false
      end
  | Loaded _ => false
  end.

(** A world whose producer acknowledges whatever it is given. *)
Definition producer_acks {num} (w : @world num) : Prop :=
  ∀ topic agg, ∃ u, send_and_wait w topic agg = Reply u.

(** ** More concrete records and worlds *)

(** A payload that is JSON but not an object: [[1]]. *)
Definition d_json_list : delivery :=
  deliver (quiet_world now0) (Loaded (JArr [JInt 1])) now0.

(** [{"chat_id": [-4714765877], "user_id": 42, "message": "hi"}] *)
Definition rec_list_chat : dict json :=
  [(py "chat_id", JArr [JInt (-4714765877)]); (py "user_id", JInt 42);
   (py "message", JStr (py "hi"))].

Definition d_list_chat : delivery :=
  deliver (quiet_world now0) (Loaded (JObj rec_list_chat)) now0.

(** The mention, sent in a chat that is not watched. *)
Definition rec_unwatched : dict json :=
  [(py "chat_id", JInt 1); (py "user_id", JInt 42);
   (py "message", JStr (py "@music_recommender_iss_bot rate these"))].

Definition d_unwatched : delivery :=
  deliver (quiet_world now0) (Loaded (JObj rec_unwatched)) now0.

(** A process in a zone at a fixed offset from UTC. *)
Definition world_at_offset (offset now : Z) : @world Z :=
  {| now_ms := now;
     utcoffset_ms := fun _ => offset;
     clock_error := None;
     detect_language := fun _ _ => Reply (Some (py "en"));
     translate := fun _ _ => Reply None;
     post_predict := fun _ _ => Reply [(py "pos", 1)];
     send_and_wait := fun _ _ => Reply tt |}.

(** A world whose producer gets no acknowledgment. *)
Definition unacked_world (now : Z) : @world Z :=
  {| now_ms := now;
     utcoffset_ms := fun _ => 0;
     clock_error := None;
     detect_language := fun _ _ => Reply (Some (py "en"));
     translate := fun _ _ => Reply None;
     post_predict := fun _ _ => Reply [(py "pos", 1)];
     send_and_wait := fun _ _ => Failure KafkaError |}.

Definition d_mention_unacked : delivery :=
  deliver (unacked_world now0) (Loaded (JObj rec_mention)) now0.

(** A world whose translator detects French and replies without a
    "translatedText". *)
Definition french_world (now : Z) : @world Z :=
  {| now_ms := now;
     utcoffset_ms := fun _ => 0;
     clock_error := None;
     detect_language := fun _ _ => Reply (Some (py "fr"));
     translate := fun _ _ => Reply None;
     post_predict := fun _ t => Reply [(py "len", Z.of_nat (length t))];
     send_and_wait := fun _ _ => Reply tt |}.

(** A secret [{"username": "bot", "password": "pw"}] and two brokers. *)
Definition aws_example : aws :=
  {| get_secret_value :=
       Reply (Some (Loaded (JObj [(py "username", JStr (py "bot"));
                                  (py "password", JStr (py "pw"))])));
     get_bootstrap_brokers :=
       Reply [(py "BootstrapBrokerStringPublicSaslScram",
               py "b-1.msk:9196,b-2.msk:9196")] |}.

(** * Properties *)

(** ** The embedding at work *)

Example str_of_int_examples :
  str_of_int (-4714765877) = py "-4714765877" ∧ str_of_int 0 = py "0".
Proof. split; reflexivity. Qed.

Example watched_chat_ids :
  in_WATCH_CHAT_IDS (JInt (-4714765877)) = Reply true
  ∧ in_WATCH_CHAT_IDS (JFloat (Finite (-4714765877) 0)) = Reply true
  ∧ in_WATCH_CHAT_IDS (JInt 1) = Reply false
  ∧ in_WATCH_CHAT_IDS (JStr (py "-4714765877")) = Reply false
  ∧ in_WATCH_CHAT_IDS (JArr []) = Failure TypeError.
Proof. repeat split; reflexivity. Qed.

(** The day test at the ends of the calendar, at UTC+8 and at UTC-5: the
    first instant of year 10000 and the last before year 1 are refused by
    [fromtimestamp], instants of years 1 to 9999 whose local time is not by
    [astimezone]; between them the test compares local days. *)
Example day_test_at_the_ends :
  is_same_local_day (world_at_offset 28800000 now0) MAX_MS
  = Failure ValueError
  ∧ is_same_local_day (world_at_offset 28800000 now0) (MIN_MS - 1)
    = Failure ValueError
  ∧ is_same_local_day (world_at_offset 28800000 now0) (MAX_MS - 28800000)
    = Failure OverflowError
  ∧ is_same_local_day (world_at_offset 28800000 now0) (MAX_MS - 28800001)
    = Reply false
  ∧ is_same_local_day (world_at_offset (-18000000) now0) MIN_MS
    = Failure OverflowError
  ∧ is_same_local_day (world_at_offset (-18000000) now0) (MAX_MS - 1)
    = Reply false
  ∧ is_same_local_day (world_at_offset 28800000 now0) (now0 + 6 * 3600000 - 1)
    = Reply true
  ∧ is_same_local_day (world_at_offset 28800000 now0) (now0 + 6 * 3600000)
    = Reply false.
Proof. repeat split; reflexivity. Qed.

(** User 42 sends eleven plain messages and then the mention, all today:
    the pipeline scores messages 3 to 11 and the cleaned mention, and
    publishes one record. *)
Example twelve_messages :
  let batch := map plain_text (seq 3 9) ++ [py "rate these"] in
  let agg := [(py "pos", Num 10); (py "user_id", Str (py "42"))] in
  consume_and_process 0 Z.add repr_opaque
    (map d_plain (seq 1 11) ++ [d_mention_today]) init
  = ({| user_history :=
          {[ py "42" := map plain_text (seq 3 9) ++ [mention_text] ]};
        trace := LogRealtimeStarted
                 :: LogTriggered (py "42") batch
                 :: map CallPredict batch
                 ++ [Send RESULT_TOPIC agg; LogSent (py "42") agg] |}, Next).
Proof. vm_compute. reflexivity. Qed.

(** A backfill of two polls followed by the live loop. *)
Example backfill_then_live :
  main 0 Z.add repr_opaque
    [[(0%nat, [d_plain 1; d_no_message]); (1%nat, [])]; []; [(0%nat, [d_plain 2])]]
    [d_mention_yesterday]
  = ({| user_history := {[ py "42" := [plain_text 1; []] ]};
        trace := [LogPreloaded (py "42") (plain_text 1);
                  LogPreloaded (py "42") [];
                  LogHistoryPreloaded;
                  LogRealtimeStarted;
                  LogTriggered (py "42") [plain_text 1; []];
                  CallPredict (plain_text 1);
                  CallPredict [];
                  Send RESULT_TOPIC
                    [(py "pos", Num 2); (py "user_id", Str (py "42"))];
                  LogSent (py "42")
                    [(py "pos", Num 2); (py "user_id", Str (py "42"))]] |},
     Next).
Proof. vm_compute. reflexivity. Qed.

(** ** Strings *)

Lemma strip_prefix_app (p s : pystr) : strip_prefix p (p ++ s) = Some s.
Proof.
  induction p as [|a p IH]; simpl; [done|].
  by rewrite N.eqb_refl.
Qed.

Lemma strip_prefix_Some (p s r : pystr) :
  strip_prefix p s = Some r → s = p ++ r.
Proof.
  revert s. induction p as [|a p IH]; intros [|b s]; simpl; try congruence.
  destruct (N.eqb_spec a b) as [->|]; [|done].
  intros H. by rewrite (IH _ H).
Qed.

Lemma strip_prefix_None (p s : pystr) :
  strip_prefix p s = None ↔ ¬ p `prefix_of` s.
Proof.
  split.
  - intros H [k ->]. by rewrite strip_prefix_app in H.
  - intros H. destruct (strip_prefix p s) as [r|] eqn:E; [|done].
    exfalso. apply H. exists r. by apply strip_prefix_Some.
Qed.

Lemma contains_nil (p : pystr) :
  contains p [] = match strip_prefix p [] with Some _ => true | None => false end.
Proof. done. Qed.

Lemma contains_cons (p : pystr) (c : N) (s : pystr) :
  contains p (c :: s) =
    match strip_prefix p (c :: s) with Some _ => true | None => contains p s end.
Proof. done. Qed.

Lemma contains_spec (p s : pystr) :
  contains p s = true ↔ ∃ a b, s = a ++ p ++ b.
Proof.
  induction s as [|c s IH].
  - rewrite contains_nil. destruct (strip_prefix p []) as [r|] eqn:E.
    + split; [|done]. intros _. exists [], r.
      exact (strip_prefix_Some _ _ _ E).
    + split; [done|]. intros (a & b & H).
      destruct a; [|done]. simpl in H.
      apply strip_prefix_None in E. destruct E. by exists b.
  - rewrite contains_cons. destruct (strip_prefix p (c :: s)) as [r|] eqn:E.
    + split; [|done]. intros _. exists [], r.
      exact (strip_prefix_Some _ _ _ E).
    + rewrite IH. apply strip_prefix_None in E. split.
      * intros (a & b & ->). by exists (c :: a), b.
      * intros (a & b & H). destruct a as [|c' a]; simpl in H.
        -- destruct E. by exists b.
        -- injection H as -> ->. by exists a, b.
Qed.

Lemma skip_spaces_app (ws rest : pystr) :
  forallb is_space ws = true → skip_spaces (ws ++ rest) = skip_spaces rest.
Proof.
  induction ws as [|c ws IH]; simpl; [done|].
  intros [Hc Hws]%andb_prop. rewrite Hc. by apply IH.
Qed.

Lemma skip_spaces_id (rest : pystr) :
  (∀ c, head rest = Some c → is_space c = false) → skip_spaces rest = rest.
Proof.
  destruct rest as [|c rest]; simpl; [done|].
  intros H. by rewrite (H c eq_refl).
Qed.

(** ** The window *)

Lemma deque_append_drop (d : list pystr) (x : pystr) :
  (length d ≤ maxlen)%nat →
  deque_append d x = drop (length (d ++ [x]) - maxlen) (d ++ [x]).
Proof.
  intros Hd. unfold deque_append. cbv zeta.
  rewrite length_app. simpl length.
  destruct (Nat.ltb_spec maxlen (length d + 1)) as [Hlt|Hge].
  - replace (length d + 1 - maxlen)%nat with 1%nat by lia.
    by destruct (d ++ [x]).
  - by replace (length d + 1 - maxlen)%nat with 0%nat by lia.
Qed.

Lemma deque_append_length (d : list pystr) (x : pystr) :
  (length d ≤ maxlen)%nat → (length (deque_append d x) ≤ maxlen)%nat.
Proof.
  intros Hd. rewrite deque_append_drop by done.
  rewrite length_drop, length_app. simpl. lia.
Qed.

Lemma fold_deque_append (xs d : list pystr) :
  (length d ≤ maxlen)%nat →
  fold_left deque_append xs d = drop (length (d ++ xs) - maxlen) (d ++ xs)
  ∧ (length (fold_left deque_append xs d) ≤ maxlen)%nat.
Proof.
  revert d. induction xs as [|x xs IH]; intros d Hd; simpl.
  - rewrite app_nil_r. replace (length d - maxlen)%nat with 0%nat by lia.
    done.
  - destruct (IH (deque_append d x) (deque_append_length d x Hd)) as [-> Hlen'].
    split; [|done].
    rewrite deque_append_drop by done.
    rewrite (cons_middle x d xs), (assoc_L (++) d [x] xs).
    set (l := d ++ [x]).
    assert (Hl : (length l ≤ S maxlen)%nat).
    { unfold l. rewrite length_app. cbn [length]. lia. }
    rewrite <- (drop_app_le l xs (length l - maxlen)) by lia.
    rewrite drop_drop. f_equal.
    repeat (rewrite length_app || rewrite length_drop). lia.
Qed.

(** ** Dicts *)

Lemma dict_get_set_eq {V} (d : dict V) (k : pystr) (v : V) :
  dict_get (dict_set d k v) k = Some v.
Proof.
  induction d as [|[k' v'] d IH]; simpl.
  - by rewrite decide_True.
  - destruct (decide (k = k')) as [->|Hne]; simpl.
    + by rewrite decide_True.
    + by rewrite decide_False.
Qed.

Lemma dict_get_set_ne {V} (d : dict V) (k k' : pystr) (v : V) :
  k ≠ k' → dict_get (dict_set d k v) k' = dict_get d k'.
Proof.
  intros Hne. induction d as [|[k0 v0] d IH]; simpl.
  - by rewrite decide_False.
  - destruct (decide (k = k0)) as [->|Hne0]; simpl.
    + by rewrite !decide_False.
    + destruct (decide (k' = k0)); done.
Qed.

Lemma dict_get_map {V W} (f : V → W) (d : dict V) (k : pystr) :
  dict_get (map (fun kv => (kv.1, f kv.2)) d) k = f <$> dict_get d k.
Proof.
  induction d as [|[k' v'] d IH]; simpl; [done|].
  by destruct (decide (k = k')).
Qed.

Lemma dict_get_None {V} (d : dict V) (k : pystr) :
  k ∉ d.*1 → dict_get d k = None.
Proof.
  induction d as [|[k' v'] d IH]; simpl; [done|].
  intros Hk. apply not_elem_of_cons in Hk as [Hne Hk].
  rewrite decide_False by done. by apply IH.
Qed.

Section HandlerProperties.

Context {num : Type}.
Variable zero : num.
Variable add : num -> num -> num.
Variable repr : json -> pystr.

Abbreviation machine := (@machine num).
Abbreviation world := (@world num).
Abbreviation delivery := (@delivery num).
Abbreviation process := (process zero add repr).
Abbreviation preload_record := (preload_record repr).
Abbreviation trigger := (trigger zero add).
Abbreviation aggregate := (aggregate zero add).
Abbreviation aggregate_result := (aggregate_result zero add).
Abbreviation agg_add := (agg_add zero add).
Abbreviation rec_user_id := (rec_user_id repr).

(** *** Aggregation *)

Lemma fold_agg_add (r : ScoreMap) (agg : dict num) (k : pystr) :
  well_formed_dict r →
  dict_get (fold_left agg_add r agg) k =
    match dict_get r k with
    | Some v => Some (add (default zero (dict_get agg k)) v)
    | None => dict_get agg k
    end.
Proof.
  unfold well_formed_dict. revert agg.
  induction r as [|[k' v'] r IH]; intros agg Hnd; simpl; [done|].
  apply NoDup_cons in Hnd as [Hk' Hnd].
  rewrite IH by done. unfold agg_add at 1 2. simpl.
  destruct (decide (k = k')) as [->|Hne].
  - by rewrite (dict_get_None r k'), dict_get_set_eq.
  - by rewrite dict_get_set_ne.
Qed.

Lemma fold_results_get (results : list ScoreMap) (agg : dict num) (k : pystr) :
  Forall well_formed_dict results →
  dict_get (fold_left (fun agg r => fold_left agg_add r agg) results agg) k =
    match field_values k results with
    | [] => dict_get agg k
    | vs => Some (fold_left add vs (default zero (dict_get agg k)))
    end.
Proof.
  revert agg. induction results as [|r results IH]; intros agg Hwf; [done|].
  apply Forall_cons in Hwf as [Hr Hwf].
  cbn [fold_left]. rewrite IH by done. rewrite fold_agg_add by done.
  unfold field_values. cbn [omap list_omap].
  destruct (dict_get r k) as [v|]; [|done].
  fold (field_values k results). simpl.
  by destruct (field_values k results).
Qed.

Lemma aggregate_get (results : list ScoreMap) (k : pystr) :
  Forall well_formed_dict results →
  dict_get (aggregate results) k =
    match field_values k results with
    | [] => None
    | vs => Some (fold_left add vs zero)
    end.
Proof. intros Hwf. unfold aggregate. by rewrite fold_results_get. Qed.

Lemma aggregate_result_get (results : list ScoreMap) (uid k : pystr) :
  Forall well_formed_dict results →
  k ≠ py "user_id" →
  dict_get (aggregate_result results uid) k =
    match field_values k results with
    | [] => None
    | vs => Some (Num (fold_left add vs zero))
    end.
Proof.
  intros Hwf Hk. unfold aggregate_result.
  rewrite dict_get_set_ne by done.
  rewrite (dict_get_map Num), aggregate_get by done.
  by destruct (field_values k results).
Qed.

Lemma aggregate_result_user_id (results : list ScoreMap) (uid : pystr) :
  dict_get (aggregate_result results uid) (py "user_id") = Some (Str uid).
Proof. apply dict_get_set_eq. Qed.

(** *** [gather] *)

Lemma gather_Failure (w : world) (n : nat) (batch : list pystr) :
  (∃ i t e, batch !! i = Some t ∧ call_predict w (n + i) t = Failure e) →
  ∃ e, gather w n batch = Failure e.
Proof.
  revert n. induction batch as [|t0 batch IH]; intros n (i & t & e & Hi & He).
  - done.
  - cbn [gather]. destruct i as [|i]; simpl in Hi.
    + injection Hi as ->. rewrite Nat.add_0_r in He. rewrite He. by exists e.
    + destruct (IH (S n)) as [e' ->].
      { exists i, t, e. split; [done|]. by rewrite Nat.add_succ_comm. }
      destruct (call_predict w n t0); by eexists.
Qed.

Lemma gather_Reply (w : world) (n : nat) (batch : list pystr)
    (results : list ScoreMap) :
  gather w n batch = Reply results →
  length results = length batch ∧
  ∀ i t, batch !! i = Some t →
    ∃ r, call_predict w (n + i) t = Reply r ∧ results !! i = Some r.
Proof.
  revert n results. induction batch as [|t0 batch IH]; intros n results; cbn [gather].
  - intros [= <-]. split; [done|]. by intros i t.
  - destruct (call_predict w n t0) as [r0|e0] eqn:E0; [|done].
    destruct (gather w (S n) batch) as [rs|e] eqn:E; [|done].
    intros [= <-]. destruct (IH _ _ E) as [Hlen Hall].
    split; [simpl; by rewrite Hlen|].
    intros [|i] t Hi; simpl in Hi.
    + injection Hi as <-. rewrite Nat.add_0_r. by exists r0.
    + destruct (Hall i t Hi) as (r & Hr & Hri).
      exists r. by rewrite <- Nat.add_succ_comm.
Qed.

Lemma gather_nil (w : world) (n : nat) : gather w n [] = Reply [].
Proof. done. Qed.

(** *** The history *)

Lemma getitem_fst (u : pystr) (h : gmap pystr (list pystr)) :
  (getitem u h).1 = default [] (h !! u).
Proof. unfold getitem. by destruct (h !! u). Qed.

Lemma getitem_snd_lookup (u u' : pystr) (h : gmap pystr (list pystr)) :
  default [] ((getitem u h).2 !! u') = default [] (h !! u').
Proof.
  unfold getitem. destruct (h !! u) eqn:E; [done|]. simpl.
  destruct (decide (u = u')) as [<-|Hne].
  - by rewrite lookup_insert_eq, E.
  - by rewrite lookup_insert_ne.
Qed.

Lemma history_append_lookup (u text : pystr) (σ : machine) :
  user_history (history_append u text σ) !! u
  = Some (deque_append (default [] (user_history σ !! u)) text).
Proof.
  unfold history_append, getitem.
  destruct (user_history σ !! u); simpl; by rewrite lookup_insert_eq.
Qed.

Lemma history_append_lookup_ne (u u' text : pystr) (σ : machine) :
  u ≠ u' →
  default [] (user_history (history_append u text σ) !! u')
  = default [] (user_history σ !! u').
Proof.
  intros Hne. unfold history_append, getitem.
  destruct (user_history σ !! u); simpl; by rewrite !lookup_insert_ne.
Qed.

Lemma history_append_trace (u text : pystr) (σ : machine) :
  trace (history_append u text σ) = trace σ.
Proof. unfold history_append. by destruct (getitem u (user_history σ)). Qed.

Lemma admit_all_lookup (adm : list (pystr * pystr)) (u : pystr) (σ : machine) :
  default [] (user_history (admit_all adm σ) !! u)
  = fold_left deque_append (texts_of u adm) (default [] (user_history σ !! u)).
Proof.
  revert σ. induction adm as [|[u' t] adm IH]; intros σ; [done|].
  unfold admit_all, texts_of in *. cbn [fold_left]. rewrite IH.
  rewrite filter_cons. simpl. destruct (decide (u' = u)) as [->|Hne].
  - by rewrite history_append_lookup.
  - by rewrite history_append_lookup_ne.
Qed.

Lemma deque_append_last (d : list pystr) (x : pystr) :
  last (deque_append d x) = Some x.
Proof.
  unfold deque_append. cbv zeta.
  destruct (Nat.ltb_spec maxlen (length (d ++ [x]))) as [Hlt|_].
  - destruct d as [|a d]; simpl in *; [unfold maxlen in Hlt; lia|].
    apply last_snoc.
  - apply last_snoc.
Qed.

(** *** The trigger pipeline *)

Lemma trigger_history (w : world) (u : pystr) (σ : machine) :
  user_history (trigger w u σ).1 = (getitem u (user_history σ)).2.
Proof.
  unfold trigger. destruct (getitem u (user_history σ)) as [b h].
  destruct (gather w 0 (map m_clean b)); [|done].
  by destruct (send_and_wait w _ _).
Qed.

Lemma trigger_trace (w : world) (u : pystr) (σ : machine) :
  let clean_batch := map m_clean (default [] (user_history σ !! u)) in
  ∃ rest, trace (trigger w u σ).1
          = trace σ ++ LogTriggered u clean_batch
                    :: map CallPredict clean_batch ++ rest.
Proof.
  cbv zeta. rewrite <- getitem_fst. unfold trigger.
  destruct (getitem u (user_history σ)) as [b h]. cbn [fst].
  destruct (gather w 0 (map m_clean b)) as [rs|e].
  - destruct (send_and_wait w _ _); eexists; simpl;
      rewrite <- ?(assoc_L (++)); simpl; rewrite <- ?(assoc_L (++)); done.
  - eexists; simpl; rewrite <- ?(assoc_L (++)); done.
Qed.

(** A watched record with a str message that mentions the bot, on which
    the day test returns, runs the pipeline on the history as the admission
    step left it. *)
Lemma process_triggering (d : delivery) (σ : machine) (rec : dict json)
    (text : pystr) (same_day : bool) :
  value (msg d) = Loaded (JObj rec) →
  in_WATCH_CHAT_IDS (rec_chat_id rec) = Reply true →
  dict_get rec (py "message") = Some (JStr text) →
  (∃ a b, text = a ++ BOT_MENTION ++ b) →
  is_same_local_day (env d) (timestamp (msg d)) = Reply same_day →
  process d σ
  = trigger (env d) (rec_user_id rec)
      (if same_day then history_append (rec_user_id rec) text σ else σ).
Proof.
  intros Hv Hw Ht Hm%contains_spec Hday. unfold process.
  rewrite Hv, Hw. unfold rec_text. rewrite Ht. simpl.
  by rewrite Hday, Hm.
Qed.

(** *** The trace only grows *)

Lemma emit_trace_prefix (o : list output) (σ : machine) :
  trace σ `prefix_of` trace (emit o σ).
Proof. by exists o. Qed.

Lemma trigger_trace_prefix (w : world) (u : pystr) (σ : machine) :
  trace σ `prefix_of` trace (trigger w u σ).1.
Proof. destruct (trigger_trace w u σ) as [rest ->]. by eexists. Qed.

Lemma process_trace_prefix (d : delivery) (σ : machine) :
  trace σ `prefix_of` trace (process d σ).1.
Proof.
  unfold process.
  destruct (value (msg d)) as [[| | | | | |rec]|e]; try done.
  - destruct (in_WATCH_CHAT_IDS _) as [watched|]; [|done].
    destruct (_ || _); [done|].
    destruct (is_same_local_day _ _) as [[|]|]; [| |done];
      destruct (contains _ _); simpl;
      try done; try (by rewrite history_append_trace).
    + etrans; [|apply trigger_trace_prefix]. by rewrite history_append_trace.
    + apply trigger_trace_prefix.
  - destruct (except_JSONDecodeError_TypeError e); [|done].
    apply emit_trace_prefix.
Qed.

Lemma for_each_trace_prefix {A} (body : A → machine → machine * flow)
    (l : list A) (σ : machine) :
  (∀ a σ, trace σ `prefix_of` trace (body a σ).1) →
  trace σ `prefix_of` trace (for_each body l σ).1.
Proof.
  intros Hbody. revert σ. induction l as [|a l IH]; intros σ; [done|].
  simpl. specialize (Hbody a σ). destruct (body a σ) as [σ' [|e]]; [|done].
  etrans; [exact Hbody|apply IH].
Qed.

(** *** Claims about the window, the trigger and the scoring calls *)

(** C3. For every sequence of admissions, possibly interleaved with
    admissions to other users, starting from an empty history: the window of
    a user never holds more than [maxlen] = 10 texts, and it holds exactly
    the last 10 texts admitted for that user (all of them while there are
    at most 10), in admission order; a deque that receives the texts [xs]
    one by one likewise ends as the last 10 of [xs]. *)
Theorem window_capacity_fifo (adm : list (pystr * pystr)) (u : pystr)
    (xs : list pystr) :
  let window :=
    default [] (user_history (admit_all adm (empty_machine : machine)) !! u) in
  (length window ≤ 10)%nat
  ∧ window = drop (length (texts_of u adm) - 10) (texts_of u adm)
  ∧ (length (fold_left deque_append xs []) ≤ 10)%nat
  ∧ fold_left deque_append xs [] = drop (length xs - 10) xs.
Proof.
  cbv zeta. rewrite admit_all_lookup. simpl.
  assert (H0 : (length (@nil pystr) ≤ maxlen)%nat) by (simpl; lia).
  destruct (fold_deque_append (texts_of u adm) [] H0) as [E1 L1].
  destruct (fold_deque_append xs [] H0) as [E2 L2].
  done.
Qed.

(** C4 (as the code has it). A record of a watched chat whose message is a
    str containing the mention, and on which the day test returns, runs the
    trigger pipeline also when the test answers that its timestamp is not
    on the current local day: nothing is admitted, and the pipeline runs
    for the record's user on the history as it was, its first act being the
    log of the cleaned snapshot. *)
Theorem trigger_independent_of_admission (d : delivery) (σ : machine)
    (rec : dict json) (text : pystr) :
  value (msg d) = Loaded (JObj rec) →
  in_WATCH_CHAT_IDS (rec_chat_id rec) = Reply true →
  dict_get rec (py "message") = Some (JStr text) →
  (∃ a b, text = a ++ BOT_MENTION ++ b) →
  is_same_local_day (env d) (timestamp (msg d)) = Reply false →
  process d σ = trigger (env d) (rec_user_id rec) σ
  ∧ ∃ rest,
      trace (process d σ).1
      = trace σ
        ++ LogTriggered (rec_user_id rec)
             (map m_clean (default [] (user_history σ !! rec_user_id rec)))
           :: rest.
Proof.
  intros Hv Hw Ht Hm Hday.
  rewrite (process_triggering d σ rec text false Hv Hw Ht Hm Hday).
  split; [done|].
  destruct (trigger_trace (env d) (rec_user_id rec) σ) as [rest ->].
  by eexists.
Qed.

(** C7. A record of a watched chat, of the current local day, whose message
    is a str containing the mention is admitted first and triggers second:
    the pipeline runs on the history that already holds the message, the
    snapshot it takes is the user's window with the triggering message as
    its newest element, this snapshot (cleaned) is what is logged and sent
    to scoring, and nothing processed later changes that part of the
    trace. *)
Theorem snapshot_includes_triggering_message (d : delivery) (σ : machine)
    (rec : dict json) (text : pystr) :
  value (msg d) = Loaded (JObj rec) →
  in_WATCH_CHAT_IDS (rec_chat_id rec) = Reply true →
  dict_get rec (py "message") = Some (JStr text) →
  (∃ a b, text = a ++ BOT_MENTION ++ b) →
  is_same_local_day (env d) (timestamp (msg d)) = Reply true →
  let uid := rec_user_id rec in
  let σ1 := history_append uid text σ in
  let snapshot := (getitem uid (user_history σ1)).1 in
  process d σ = trigger (env d) uid σ1
  ∧ snapshot = deque_append (default [] (user_history σ !! uid)) text
  ∧ last snapshot = Some text
  ∧ ∃ rest,
      trace (process d σ).1
      = trace σ ++ LogTriggered uid (map m_clean snapshot)
                :: map CallPredict (map m_clean snapshot) ++ rest
      ∧ ∀ later : list delivery,
          trace σ ++ LogTriggered uid (map m_clean snapshot)
                  :: map CallPredict (map m_clean snapshot) ++ rest
          `prefix_of` trace (for_each process later (process d σ).1).1.
Proof.
  intros Hv Hw Ht Hm Hday. cbv zeta.
  rewrite (process_triggering d σ rec text true Hv Hw Ht Hm Hday).
  rewrite getitem_fst, history_append_lookup. simpl.
  split; [done|]. split; [done|]. split; [apply deque_append_last|].
  destruct (trigger_trace (env d) (rec_user_id rec)
              (history_append (rec_user_id rec) text σ)) as [rest Hrest].
  rewrite history_append_lookup, history_append_trace in Hrest. simpl in Hrest.
  exists rest. split; [done|]. intros later. rewrite <- Hrest.
  apply for_each_trace_prefix. apply process_trace_prefix.
Qed.

(** C10. When a watched record whose str message contains the mention is
    found by the day test not to be of the current local day and its user
    has nothing buffered, the
    pipeline launches no scoring call and hands exactly one record to the
    producer, made of the user_id alone; when the producer acknowledges it
    the loop goes on. *)
Theorem trigger_on_empty_window (d : delivery) (σ : machine)
    (rec : dict json) (text : pystr) :
  value (msg d) = Loaded (JObj rec) →
  in_WATCH_CHAT_IDS (rec_chat_id rec) = Reply true →
  dict_get rec (py "message") = Some (JStr text) →
  (∃ a b, text = a ++ BOT_MENTION ++ b) →
  is_same_local_day (env d) (timestamp (msg d)) = Reply false →
  default [] (user_history σ !! rec_user_id rec) = [] →
  let uid := rec_user_id rec in
  let agg := [(py "user_id", Str uid)] in
  trace (process d σ).1
  = trace σ ++ [LogTriggered uid []; Send RESULT_TOPIC agg]
            ++ match send_and_wait (env d) RESULT_TOPIC agg with
               | Reply _ => [LogSent uid agg]
               | Failure _ => []
               end
  ∧ (process d σ).2
    = match send_and_wait (env d) RESULT_TOPIC agg with
      | Reply _ => Next
      | Failure e => Propagate e
      end.
Proof.
  intros Hv Hw Ht Hm Hday Hempty. cbv zeta.
  rewrite (process_triggering d σ rec text false Hv Hw Ht Hm Hday).
  rewrite <- getitem_fst in Hempty. unfold trigger.
  destruct (getitem (rec_user_id rec) (user_history σ)) as [b h].
  simpl in Hempty. subst b. simpl.
  change (aggregate_result [] (rec_user_id rec))
    with [(py "user_id", @Str num (rec_user_id rec))].
  destruct (send_and_wait (env d) _ _); simpl;
    by rewrite <- ?(assoc_L (++)).
Qed.

(** C2. When a record triggers the pipeline (its chat is watched, its
    message is a str with the mention, the day test has returned) and at
    least one of the scoring calls launched for it fails, the pipeline logs
    the failure and publishes nothing: after the log of the trigger and the
    launches of the calls the trace only gains the failure log, no [Send];
    the body of the loop ends normally, so the loop goes on with the
    records that follow. *)
Theorem scoring_failure_abandons_trigger (d : delivery) (σ : machine)
    (rec : dict json) (text : pystr) (same_day : bool)
    (later : list delivery) :
  value (msg d) = Loaded (JObj rec) →
  in_WATCH_CHAT_IDS (rec_chat_id rec) = Reply true →
  dict_get rec (py "message") = Some (JStr text) →
  (∃ a b, text = a ++ BOT_MENTION ++ b) →
  is_same_local_day (env d) (timestamp (msg d)) = Reply same_day →
  let uid := rec_user_id rec in
  let σ1 := if same_day then history_append uid text σ else σ in
  let clean_batch := map m_clean (getitem uid (user_history σ1)).1 in
  (∃ i t e, clean_batch !! i = Some t
            ∧ call_predict (env d) i t = Failure e) →
  ∃ e σ',
    process d σ = (σ', Next)
    ∧ trace σ' = trace σ ++ LogTriggered uid clean_batch
                         :: map CallPredict clean_batch
                         ++ [LogPredictionFailed e]
    ∧ (∀ topic agg, Send topic agg ∉ drop (length (trace σ)) (trace σ'))
    ∧ for_each process (d :: later) σ = for_each process later σ'.
Proof.
  intros Hv Hw Ht Hm Hday. cbv zeta. intros Hfail.
  cbn [for_each].
  rewrite (process_triggering d σ rec text same_day Hv Hw Ht Hm Hday).
  set (σ1 := if same_day then _ else σ) in *.
  assert (Htr : trace σ1 = trace σ).
  { unfold σ1. destruct same_day; [|done]. apply history_append_trace. }
  unfold trigger.
  destruct (getitem (rec_user_id rec) (user_history σ1)) as [b h].
  cbn [fst] in Hfail.
  destruct (gather_Failure (env d) 0 (map m_clean b) Hfail) as [e ->].
  eexists e, _. split; [done|]. simpl. rewrite Htr.
  split; [by rewrite <- (assoc_L (++))|]. split; [|done].
  intros topic agg. rewrite <- (assoc_L (++)), drop_app_length.
  intros Hin. apply elem_of_cons in Hin as [?|Hin]; [done|].
  apply elem_of_app in Hin as [Hin|Hin].
  - apply list_elem_of_fmap in Hin as (? & ? & ?). done.
  - apply list_elem_of_singleton in Hin. done.
Qed.

(** *** Claims about the records that are filtered or skipped *)

Lemma getitem_present (u : pystr) (h : gmap pystr (list pystr))
    (d : list pystr) :
  h !! u = Some d → getitem u h = (d, h).
Proof. intros H. unfold getitem. by rewrite H. Qed.

(** The sound part of the admission filter: a record whose chat is not
    watched, or whose message is not a str, changes no window, in either
    phase; neither does a record that is not a JSON object. *)
Lemma filtered_record_never_admitted (d : delivery) (σ : machine) :
  (∀ rec, value (msg d) = Loaded (JObj rec) →
     in_WATCH_CHAT_IDS (rec_chat_id rec) ≠ Reply true
     ∨ isinstance_str (rec_text rec) = false) →
  user_history (preload_record d σ).1 = user_history σ
  ∧ user_history (process d σ).1 = user_history σ.
Proof.
  intros H. unfold preload_record, process.
  destruct (value (msg d)) as [[| | | | | |rec]|e]; try done.
  - specialize (H rec eq_refl).
    destruct (in_WATCH_CHAT_IDS _) as [[|]|]; try done.
    destruct H as [H|H]; [done|]. rewrite H. simpl.
    by rewrite ?andb_false_r, ?orb_true_r.
  - by destruct (except_JSONDecodeError_TypeError e).
Qed.

(** C1 (at the records the code lets through). A record of a watched chat,
    of the current local day, with a str message and without a user_id
    field is admitted, in the backfill and in the live loop, to the window
    of the user named "None": the message becomes the newest element of
    that window. *)
Theorem missing_user_id_is_admitted (d : delivery) (σ : machine)
    (rec : dict json) (text : pystr) :
  value (msg d) = Loaded (JObj rec) →
  dict_get rec (py "user_id") = None →
  in_WATCH_CHAT_IDS (rec_chat_id rec) = Reply true →
  dict_get rec (py "message") = Some (JStr text) →
  is_same_local_day (env d) (timestamp (msg d)) = Reply true →
  let window := deque_append (default [] (user_history σ !! py "None")) text in
  user_history (preload_record d σ).1 !! py "None" = Some window
  ∧ user_history (process d σ).1 !! py "None" = Some window.
Proof.
  intros Hv Hu Hw Ht Hday. cbv zeta.
  assert (Huid : rec_user_id rec = py "None")
    by (unfold rec_user_id; by rewrite Hu).
  split.
  - unfold preload_record. rewrite Hv, Hw. unfold rec_text. rewrite Ht, Hday.
    simpl. rewrite Huid. apply history_append_lookup.
  - unfold process. rewrite Hv, Hw. unfold rec_text. rewrite Ht, Hday.
    simpl. rewrite Huid.
    pose proof (history_append_lookup (py "None") text σ) as Hl.
    destruct (contains BOT_MENTION text); [|done].
    rewrite trigger_history. by rewrite (getitem_present _ _ _ Hl).
Qed.

(** C8 (as the code has it). A record whose payload is a JSON object
    without a message field, whose chat_id can be hashed and on which the
    day test, if the chat is watched, returns, is handled as a record with
    the empty message: the loop goes on, the pipeline is not run, and the
    empty text is admitted to the user's window exactly when the chat is
    watched and the day test answers that the timestamp is of the current
    local day. The backfill logs the record either way; the live loop logs
    nothing. *)
Theorem missing_message_is_empty_text (d : delivery) (σ : machine)
    (rec : dict json) (watched admitted : bool) :
  value (msg d) = Loaded (JObj rec) →
  dict_get rec (py "message") = None →
  in_WATCH_CHAT_IDS (rec_chat_id rec) = Reply watched →
  (if watched then is_same_local_day (env d) (timestamp (msg d))
   else Reply false) = Reply admitted →
  let uid := rec_user_id rec in
  process d σ = (if admitted then history_append uid [] σ else σ, Next)
  ∧ trace (process d σ).1 = trace σ
  ∧ preload_record d σ
    = (if admitted
       then emit [LogPreloaded uid []] (history_append uid [] σ)
       else emit [LogIgnoreInvalid (JObj rec)] σ, Next).
Proof.
  intros Hv Ht Hw Hday. cbv zeta. unfold process, preload_record.
  rewrite Hv, Hw. unfold rec_text. rewrite Ht. simpl.
  destruct watched; simpl.
  - rewrite Hday. destruct admitted; simpl; [|done].
    by rewrite history_append_trace.
  - injection Hday as <-. done.
Qed.

(** The handled part of the parse step: a payload on which [json.loads]
    raises [JSONDecodeError] is logged and skipped by both loops, which go
    on with the next record; no window changes and no trigger runs. *)
Lemma invalid_json_is_skipped (d : delivery) (σ : machine)
    (later : list delivery) :
  value (msg d) = Raised JSONDecodeError →
  process d σ = (emit [LogIgnoredNonJson] σ, Next)
  ∧ preload_record d σ = (emit [LogIgnoredNonJson] σ, Next)
  ∧ for_each process (d :: later) σ
    = for_each process later (emit [LogIgnoredNonJson] σ)
  ∧ for_each preload_record (d :: later) σ
    = for_each preload_record later (emit [LogIgnoredNonJson] σ).
Proof.
  intros Hv. cbn [for_each]. unfold process, preload_record. by rewrite Hv.
Qed.

(** C9 (at the records the code does not skip). A payload that is not
    UTF-8, on which [decode] raises [UnicodeDecodeError], is not skipped:
    the exception leaves the body of either loop, nothing is logged and the
    records that follow are not processed. *)
Theorem undecodable_payload_aborts_loop (d : delivery) (σ : machine)
    (later : list delivery) :
  value (msg d) = Raised UnicodeDecodeError →
  process d σ = (σ, Propagate UnicodeDecodeError)
  ∧ preload_record d σ = (σ, Propagate UnicodeDecodeError)
  ∧ for_each process (d :: later) σ = (σ, Propagate UnicodeDecodeError)
  ∧ for_each preload_record (d :: later) σ
    = (σ, Propagate UnicodeDecodeError).
Proof.
  intros Hv. cbn [for_each]. unfold process, preload_record. by rewrite Hv.
Qed.

Lemma trigger_publishes (w : world) (uid : pystr) (σ : machine)
    (results : list ScoreMap) :
  gather w 0 (map m_clean (getitem uid (user_history σ)).1) = Reply results →
  Send RESULT_TOPIC (aggregate_result results uid) ∈ trace (trigger w uid σ).1.
Proof.
  unfold trigger. destruct (getitem uid (user_history σ)) as [b h].
  cbn [fst]. intros ->.
  destruct (send_and_wait w _ _); simpl;
    rewrite ?elem_of_app, ?elem_of_cons, ?list_elem_of_fmap; naive_solver.
Qed.

End HandlerProperties.

(** ** Aggregation and cleaning, on concrete data *)

(** C5 (as the code has it). The record published by a successful trigger
    maps every field name other than "user_id" that occurs in a returned
    score map to the sum, taken from 0 in the order of the batch, of the
    values the score maps give to that field (a score map without the field
    adds nothing), holds no other such field, and maps "user_id" to the
    triggering user; the score maps {"pos":1,"neu":2} and
    {"pos":3,"energy":5} of user "42" give
    {"pos":4,"neu":2,"energy":5,"user_id":"42"}. *)
Theorem aggregate_sums_fields :
  (∀ (num : Type) (zero : num) (add : num → num → num)
     (results : list (dict num)) (uid k : pystr),
     Forall well_formed_dict results →
     k ≠ py "user_id" →
     dict_get (aggregate_result zero add results uid) k
     = match field_values k results with
       | [] => None
       | vs => Some (Num (fold_left add vs zero))
       end)
  ∧ (∀ (num : Type) (zero : num) (add : num → num → num)
       (results : list (dict num)) (uid : pystr),
       dict_get (aggregate_result zero add results uid) (py "user_id")
       = Some (Str uid))
  ∧ (∀ (num : Type) (zero : num) (add : num → num → num) (w : world)
       (uid : pystr) (σ : machine) (results : list (dict num)),
       gather w 0 (map m_clean (getitem uid (user_history σ)).1)
       = Reply results →
       Send RESULT_TOPIC (aggregate_result zero add results uid)
       ∈ trace (trigger zero add w uid σ).1)
  ∧ aggregate_result 0 Z.add two_score_maps (py "42")
    = [(py "pos", Num 4); (py "neu", Num 2); (py "energy", Num 5);
       (py "user_id", Str (py "42"))].
Proof.
  split; [|split; [|split]].
  - intros. by apply aggregate_result_get.
  - intros. apply aggregate_result_user_id.
  - intros. by apply trigger_publishes.
  - reflexivity.
Qed.

(** C6. The cleaning step removes the mention that starts a text together
    with all the white space that follows it, and only that: whatever
    follows, a second mention included, is kept; a text that does not start
    with the mention is left as it is, wherever else the mention may occur
    in it. "hello @music_recommender_iss_bot" is unchanged and
    "@music_recommender_iss_bot  rate this" becomes "rate this". *)
Theorem mention_is_stripped_only_at_start :
  (∀ ws rest : pystr,
     forallb is_space ws = true →
     (∀ c, head rest = Some c → is_space c = false) →
     m_clean (BOT_MENTION ++ ws ++ rest) = rest)
  ∧ (∀ m : pystr, ¬ BOT_MENTION `prefix_of` m → m_clean m = m)
  ∧ m_clean (py "hello @music_recommender_iss_bot")
    = py "hello @music_recommender_iss_bot"
  ∧ m_clean (py "@music_recommender_iss_bot  rate this") = py "rate this".
Proof.
  split; [|split; [|split]].
  - intros ws rest Hws Hrest. unfold m_clean.
    rewrite strip_prefix_app, skip_spaces_app by done.
    by apply skip_spaces_id.
  - intros m Hm. unfold m_clean.
    by rewrite (proj2 (strip_prefix_None BOT_MENTION m) Hm).
  - reflexivity.
  - reflexivity.
Qed.

(** ** The theorems at concrete records *)

Lemma mention_text_mentions : ∃ a b, mention_text = a ++ BOT_MENTION ++ b.
Proof. by exists [], (py " rate these"). Defined.

Lemma window_capacity_fifo_witness :
  fold_left deque_append (map (fun n => [N.of_nat n]) (seq 1 12)) []
  = map (fun n => [N.of_nat n]) (seq 3 10).
Proof.
  destruct (@window_capacity_fifo Z [] []
              (map (fun n => [N.of_nat n]) (seq 1 12))) as (_ & _ & _ & H).
  exact H.
Defined.

Lemma trigger_independent_of_admission_witness :
  process 0 Z.add repr_opaque d_mention_yesterday init
  = trigger 0 Z.add (env d_mention_yesterday) (py "42") init
  ∧ ∃ rest,
      trace (process 0 Z.add repr_opaque d_mention_yesterday init).1
      = LogTriggered (py "42") [] :: rest.
Proof.
  apply (trigger_independent_of_admission 0 Z.add repr_opaque
           d_mention_yesterday init rec_mention mention_text);
    try reflexivity.
  exact mention_text_mentions.
Defined.

Lemma snapshot_includes_triggering_message_witness :
  ∃ rest,
    trace (process 0 Z.add repr_opaque d_mention_today init).1
    = LogTriggered (py "42") [py "rate these"]
      :: [CallPredict (py "rate these")] ++ rest.
Proof.
  destruct (snapshot_includes_triggering_message 0 Z.add repr_opaque
              d_mention_today init rec_mention mention_text)
    as (_ & _ & _ & rest & H & _); try reflexivity.
  - exact mention_text_mentions.
  - exists rest. exact H.
Defined.

Lemma trigger_on_empty_window_witness :
  trace (process 0 Z.add repr_opaque d_mention_yesterday init).1
  = [LogTriggered (py "42") [];
     Send RESULT_TOPIC [(py "user_id", Str (py "42"))];
     LogSent (py "42") [(py "user_id", Str (py "42"))]]
  ∧ (process 0 Z.add repr_opaque d_mention_yesterday init).2 = Next.
Proof.
  apply (trigger_on_empty_window 0 Z.add repr_opaque
           d_mention_yesterday init rec_mention mention_text);
    try reflexivity.
  exact mention_text_mentions.
Defined.

Lemma scoring_failure_abandons_trigger_witness :
  ∃ e σ',
    process 0 Z.add repr_opaque d_mention_failing init = (σ', Next)
    ∧ trace σ' = [LogTriggered (py "42") [py "rate these"];
                  CallPredict (py "rate these"); LogPredictionFailed e]
    ∧ (∀ topic agg, Send topic agg ∉ drop 0 (trace σ'))
    ∧ for_each (process 0 Z.add repr_opaque)
        [d_mention_failing; d_mention_today] init
      = for_each (process 0 Z.add repr_opaque) [d_mention_today] σ'.
Proof.
  apply (scoring_failure_abandons_trigger 0 Z.add repr_opaque
           d_mention_failing init rec_mention mention_text true
           [d_mention_today]);
    try reflexivity.
  - exact mention_text_mentions.
  - by exists 0%nat, (py "rate these"), (ClientResponseError 500).
Defined.

Lemma missing_user_id_is_admitted_witness :
  user_history (preload_record repr_opaque d_no_user_id init).1 !! py "None"
  = Some [py "hi"]
  ∧ user_history (process 0 Z.add repr_opaque d_no_user_id init).1 !! py "None"
    = Some [py "hi"].
Proof.
  apply (missing_user_id_is_admitted 0 Z.add repr_opaque d_no_user_id init
           rec_no_user_id (py "hi")); reflexivity.
Defined.

Lemma missing_message_is_empty_text_witness :
  process 0 Z.add repr_opaque d_no_message init
  = (history_append (py "42") [] init, Next)
  ∧ preload_record repr_opaque d_no_message init
    = (emit [LogPreloaded (py "42") []] (history_append (py "42") [] init),
       Next).
Proof.
  destruct (missing_message_is_empty_text 0 Z.add repr_opaque d_no_message
              init rec_no_message true true) as (H1 & _ & H2);
    try reflexivity.
  by split.
Defined.

Lemma undecodable_payload_aborts_loop_witness :
  for_each (process 0 Z.add repr_opaque) [d_not_utf8; d_mention_today] init
  = (init, Propagate UnicodeDecodeError).
Proof.
  destruct (undecodable_payload_aborts_loop 0 Z.add repr_opaque d_not_utf8
              init [d_mention_today]) as (_ & _ & H & _); [reflexivity|].
  exact H.
Defined.

Lemma aggregate_sums_fields_witness :
  dict_get (aggregate_result 0 Z.add two_score_maps (py "42")) (py "pos")
  = Some (Num 4)
  ∧ dict_get (aggregate_result 0 Z.add two_score_maps (py "42")) (py "neu")
    = Some (Num 2)
  ∧ Send RESULT_TOPIC (aggregate_result 0 Z.add [[(py "pos", 1)]] (py "42"))
    ∈ trace (trigger 0 Z.add (env d_mention_today) (py "42")
               (history_append (py "42") mention_text init)).1.
Proof.
  destruct aggregate_sums_fields as (Hsum & _ & Hsend & _).
  assert (Hwf : Forall well_formed_dict two_score_maps).
  { repeat (apply Forall_cons; split); [| |apply Forall_nil];
      unfold well_formed_dict; simpl; repeat constructor;
      rewrite ?elem_of_cons, ?elem_of_nil; intros H; vm_compute in H;
      intuition discriminate. }
  split; [|split].
  - apply (Hsum Z 0 Z.add two_score_maps (py "42") (py "pos") Hwf).
    intros H. vm_compute in H. discriminate.
  - apply (Hsum Z 0 Z.add two_score_maps (py "42") (py "neu") Hwf).
    intros H. vm_compute in H. discriminate.
  - apply (Hsend Z 0 Z.add). reflexivity.
Defined.

Lemma mention_is_stripped_only_at_start_witness :
  m_clean (BOT_MENTION ++ py "  " ++ py "rate this") = py "rate this"
  ∧ m_clean (py "hello @music_recommender_iss_bot")
    = py "hello @music_recommender_iss_bot".
Proof.
  destruct mention_is_stripped_only_at_start as (Hstrip & Hkeep & _).
  split.
  - apply (Hstrip (py "  ") (py "rate this")); [reflexivity|].
    intros c [= <-]. reflexivity.
  - apply Hkeep. intros [k Hk]. vm_compute in Hk. discriminate.
Defined.

(** ** Where the statements of the specification fail *)

(** Against C5 as stated: a score map may have a field named "user_id";
    the published record then holds the user's id under that name, not the
    sum of the field. *)
Lemma user_id_score_field_is_overwritten :
  field_values (py "user_id") [[(py "user_id", 5)]] = [5]
  ∧ dict_get (aggregate_result 0 Z.add [[(py "user_id", 5)]] (py "42"))
      (py "user_id")
    = Some (Str (py "42"))
  ∧ dict_get (aggregate_result 0 Z.add [[(py "user_id", 5)]] (py "42"))
      (py "user_id")
    ≠ Some (Num (fold_left Z.add [5] 0)).
Proof. split; [|split]; [reflexivity|reflexivity|discriminate]. Qed.

(** Against C8 as stated: the record [{"chat_id": -4714765877,
    "user_id": 42}], which has no message field, arriving on the day of its
    timestamp, is admitted by both loops: user "42", who had no window,
    gets one that holds the empty text. *)
Lemma missing_message_record_is_admitted :
  value (msg d_no_message) = Loaded (JObj rec_no_message)
  ∧ dict_get rec_no_message (py "message") = None
  ∧ user_history init !! py "42" = None
  ∧ user_history (process 0 Z.add repr_opaque d_no_message init).1 !! py "42"
    = Some [[]]
  ∧ user_history (preload_record repr_opaque d_no_message init).1 !! py "42"
    = Some [[]].
Proof. repeat split; reflexivity. Qed.

(** Against C4 as stated: the mention, sent in the watched chat with the
    timestamp 253402300800000 (10000-01-01T00:00:00Z), does not run the
    pipeline: the day test raises [ValueError], which leaves the live loop
    before the mention test; nothing is logged, scored or published. *)
Lemma mention_with_unrepresentable_timestamp_raises :
  value (msg d_mention_year_10000) = Loaded (JObj rec_mention)
  ∧ timestamp (msg d_mention_year_10000) = 253402300800000
  ∧ in_WATCH_CHAT_IDS (rec_chat_id rec_mention) = Reply true
  ∧ dict_get rec_mention (py "message") = Some (JStr mention_text)
  ∧ contains BOT_MENTION mention_text = true
  ∧ process 0 Z.add repr_opaque d_mention_year_10000 init
    = (init, Propagate ValueError).
Proof. repeat split; reflexivity. Qed.

(** * Further properties of the code *)

(** ** Splitting the broker string *)

Lemma split_nonempty (sep : N) (s : pystr) : split sep s ≠ [].
Proof.
  destruct s as [|c s]; simpl; [done|].
  destruct (N.eqb c sep); [done|]. by destruct (split sep s).
Qed.

Lemma join_cons_cons (sep : N) (p q : pystr) (rest : list pystr) :
  join sep (p :: q :: rest) = p ++ sep :: join sep (q :: rest).
Proof. done. Qed.

(** X1. [split] loses nothing: joining the pieces with the separator gives
    the string back, whatever the string (empty, or with separators at its
    ends or in a row). *)
Theorem join_split (sep : N) (s : pystr) : join sep (split sep s) = s.
Proof.
  induction s as [|c s IH]; [done|].
  simpl split. destruct (N.eqb_spec c sep) as [->|Hne].
  - pose proof (split_nonempty sep s) as Hn.
    destruct (split sep s) as [|q rest]; [done|].
    by rewrite join_cons_cons, IH.
  - pose proof (split_nonempty sep s) as Hn.
    destruct (split sep s) as [|q rest]; [done|].
    destruct rest as [|q' rest].
    + simpl in *. by rewrite IH.
    + rewrite join_cons_cons. rewrite join_cons_cons in IH.
      rewrite <- IH. done.
Qed.

(** X2. The pieces of [split] are one more than the separators of the
    string, so there is always at least one, and no piece contains the
    separator. *)
Theorem split_pieces (sep : N) (s : pystr) :
  length (split sep s) = S (length (filter (fun c => c = sep) s))
  ∧ Forall (fun piece => sep ∉ piece) (split sep s).
Proof.
  unfold pystr in *. induction s as [|c s [IHl IHf]].
  - split; [done|]. repeat constructor. apply not_elem_of_nil.
  - simpl split. rewrite filter_cons.
    destruct (N.eqb_spec c sep) as [->|Hne].
    + rewrite decide_True by done. split; [simpl; by rewrite IHl|].
      constructor; [apply not_elem_of_nil|done].
    + rewrite decide_False by done.
      destruct (split sep s) as [|q rest]; [done|].
      split; [done|]. apply Forall_cons in IHf as [Hq Hrest].
      constructor; [|done]. apply not_elem_of_cons. split; [congruence|done].
Qed.

(** ** [get_msk_connection_info] *)

(** X3. [get_msk_connection_info] returns exactly when the secret parses
    to a JSON object with the entries "username" and "password" and the
    response of MSK has the entry "BootstrapBrokerStringPublicSaslScram";
    it returns the two entries as they are and the pieces of the broker
    string between its commas, of which there is at least one. *)
Theorem get_msk_connection_info_returns (a : aws) (username password : json)
    (brokers : list pystr) :
  get_msk_connection_info a = inr (username, password, brokers)
  ↔ ∃ creds resp s,
      get_secret_value a = Reply (Some (Loaded (JObj creds)))
      ∧ dict_get creds (py "username") = Some username
      ∧ dict_get creds (py "password") = Some password
      ∧ get_bootstrap_brokers a = Reply resp
      ∧ dict_get resp (py "BootstrapBrokerStringPublicSaslScram") = Some s
      ∧ brokers = split comma s
      ∧ brokers ≠ []
      ∧ join comma brokers = s.
Proof.
  unfold get_msk_connection_info, subscript. split.
  - destruct (get_secret_value a) as [[[creds|e]|]|e]; try done.
    destruct creds as [| | | | | |creds]; try done.
    destruct (dict_get creds (py "username")) as [u|] eqn:Eu; [|done].
    destruct (dict_get creds (py "password")) as [p|] eqn:Ep; [|done].
    destruct (get_bootstrap_brokers a) as [resp|e]; [|done].
    destruct (dict_get resp _) as [s|] eqn:Es; [|done].
    intros [= <- <- <-]. exists creds, resp, s.
    repeat split; try done; [apply split_nonempty|apply join_split].
  - intros (creds & resp & s & -> & -> & -> & -> & -> & -> & _). done.
Qed.

(** ** The two loops *)

Section LoopProperties.

Context {num : Type}.
Variable zero : num.
Variable add : num -> num -> num.
Variable repr : json -> pystr.

Abbreviation machine := (@machine num).
Abbreviation output := (@output num).
Abbreviation world := (@world num).
Abbreviation delivery := (@delivery num).
Abbreviation batch := (@batch num).
Abbreviation process := (process zero add repr).
Abbreviation preload_record := (preload_record repr).
Abbreviation preload_history := (preload_history repr).
Abbreviation consume_and_process := (consume_and_process zero add repr).
Abbreviation main := (main zero add repr).
Abbreviation trigger := (trigger zero add).
Abbreviation aggregate := (aggregate zero add).
Abbreviation aggregate_result := (aggregate_result zero add).
Abbreviation agg_add := (agg_add zero add).
Abbreviation rec_user_id := (rec_user_id repr).

(** *** What a loop keeps, it keeps to the end *)

Lemma for_each_rel {A} (R : machine → machine → Prop)
    (body : A → machine → machine * flow) (l : list A) (σ : machine) :
  (∀ σ, R σ σ) →
  (∀ σ1 σ2 σ3, R σ1 σ2 → R σ2 σ3 → R σ1 σ3) →
  (∀ a σ, R σ (body a σ).1) →
  R σ (for_each body l σ).1.
Proof.
  intros Hrefl Htrans Hbody. revert σ.
  induction l as [|a l IH]; intros σ; simpl; [done|].
  specialize (Hbody a σ). destruct (body a σ) as [σ' [|e]]; [|done].
  eapply Htrans; [exact Hbody|apply IH].
Qed.

Lemma preload_history_rel (R : machine → machine → Prop)
    (polls : list batch) (σ : machine) :
  (∀ σ, R σ σ) →
  (∀ σ1 σ2 σ3, R σ1 σ2 → R σ2 σ3 → R σ1 σ3) →
  (∀ d σ, R σ (preload_record d σ).1) →
  (∀ σ, R σ (emit [LogHistoryPreloaded] σ)) →
  R σ (preload_history polls σ).1.
Proof.
  intros Hrefl Htrans Hbody Hend. revert σ.
  induction polls as [|b polls IH]; intros σ; simpl; [done|].
  destruct (any_values b); simpl; [|done].
  assert (Hb : R σ (for_each (fun tp_msgs : nat * list delivery =>
                                for_each preload_record tp_msgs.2) b σ).1).
  { apply (for_each_rel R); [done..|]. intros tp σ0. by apply (for_each_rel R). }
  destruct (for_each _ b σ) as [σ' [|e]]; [|done].
  eapply Htrans; [exact Hb|apply IH].
Qed.

Lemma main_rel (R : machine → machine → Prop)
    (polls : list batch) (evs : list delivery) :
  (∀ σ, R σ σ) →
  (∀ σ1 σ2 σ3, R σ1 σ2 → R σ2 σ3 → R σ1 σ3) →
  (∀ d σ, R σ (preload_record d σ).1) →
  (∀ d σ, R σ (process d σ).1) →
  (∀ o σ, is_backfill_log o = true ∨ o = LogRealtimeStarted → R σ (emit [o] σ)) →
  R empty_machine (main polls evs).1.
Proof.
  intros Hrefl Htrans Hpre Hlive Hemit. unfold main.
  assert (H1 : R empty_machine (preload_history polls empty_machine).1).
  { apply (preload_history_rel R); try done. intros σ. apply Hemit. by left. }
  destruct (preload_history polls empty_machine) as [σ [|e]]; [|done].
  eapply Htrans; [exact H1|]. unfold consume_and_process.
  eapply Htrans; [apply (Hemit LogRealtimeStarted); by right|].
  by apply (for_each_rel R).
Qed.

(** *** The windows stay bounded *)

Lemma getitem_bounded (u : pystr) (h : gmap pystr (list pystr)) :
  bounded h →
  (length (getitem u h).1 ≤ maxlen)%nat ∧ bounded (getitem u h).2.
Proof.
  intros Hb. unfold getitem. destruct (h !! u) as [d|] eqn:E; simpl.
  - split; [|done]. exact (Hb u d E).
  - split; [lia|]. apply map_Forall_insert_2; [simpl; lia|done].
Qed.

Lemma history_append_bounded (u text : pystr) (σ : machine) :
  bounded (user_history σ) → bounded (user_history (history_append u text σ)).
Proof.
  intros Hb. unfold history_append.
  destruct (getitem_bounded u (user_history σ) Hb) as [Hd Hh].
  destruct (getitem u (user_history σ)) as [d h]. simpl in *.
  apply map_Forall_insert_2; [|done]. by apply deque_append_length.
Qed.

Lemma trigger_bounded (w : world) (u : pystr) (σ : machine) :
  bounded (user_history σ) → bounded (user_history (trigger w u σ).1).
Proof.
  intros Hb. rewrite trigger_history. by apply getitem_bounded.
Qed.

Lemma preload_record_bounded (d : delivery) (σ : machine) :
  bounded (user_history σ) → bounded (user_history (preload_record d σ).1).
Proof.
  intros Hb. unfold preload_record.
  destruct (value (msg d)) as [[| | | | | |rec]|e]; try done.
  - destruct (in_WATCH_CHAT_IDS _) as [watched|]; [|done].
    destruct (_ && _); [|done].
    destruct (is_same_local_day _ _) as [[|]|]; [|done..].
    simpl. by apply history_append_bounded.
  - by destruct (except_JSONDecodeError_TypeError e).
Qed.

Lemma process_bounded (d : delivery) (σ : machine) :
  bounded (user_history σ) → bounded (user_history (process d σ).1).
Proof.
  intros Hb. unfold process.
  destruct (value (msg d)) as [[| | | | | |rec]|e]; try done.
  - destruct (in_WATCH_CHAT_IDS _) as [watched|]; [|done].
    destruct (_ || _); [done|].
    destruct (is_same_local_day _ _) as [[|]|]; [| |done];
      destruct (contains _ _); simpl;
      auto using history_append_bounded, trigger_bounded.
  - by destruct (except_JSONDecodeError_TypeError e).
Qed.

(** X4. Whatever the backlog and whatever arrives live, every window of
    [user_history] holds at most 10 texts when [main] ends or is left by an
    exception. *)
Theorem main_keeps_windows_bounded (polls : list batch) (evs : list delivery)
    (u : pystr) (window : list pystr) :
  user_history (main polls evs).1 !! u = Some window →
  (length window ≤ 10)%nat.
Proof.
  revert u window. change (bounded (user_history (main polls evs).1)).
  apply (main_rel (fun σ σ' => bounded (user_history σ) →
                               bounded (user_history σ'))).
  - done.
  - auto.
  - intros d σ. apply preload_record_bounded.
  - intros d σ. apply process_bounded.
  - done.
  - unfold bounded. simpl. apply map_Forall_empty.
Qed.

(** *** What the loops add to the trace *)

Lemma extends_by_refl (P : output → Prop) (σ : machine) : extends_by P σ σ.
Proof. exists []. by rewrite app_nil_r. Qed.

Lemma extends_by_trans (P : output → Prop) (σ1 σ2 σ3 : machine) :
  extends_by P σ1 σ2 → extends_by P σ2 σ3 → extends_by P σ1 σ3.
Proof.
  intros (n1 & E1 & F1) (n2 & E2 & F2). exists (n1 ++ n2).
  split; [by rewrite E2, E1, (assoc_L (++))|by apply Forall_app].
Qed.

Lemma extends_by_emit (P : output → Prop) (o : list output) (σ : machine) :
  Forall P o → extends_by P σ (emit o σ).
Proof. intros H. by exists o. Qed.

Lemma extends_by_history_append (P : output → Prop) (u text : pystr)
    (σ : machine) :
  extends_by P σ (history_append u text σ).
Proof. exists []. by rewrite app_nil_r, history_append_trace. Qed.

(** The events of one run of the pipeline: the log of the trigger, one
    launch for each text of the cleaned snapshot, and a tail without
    launches in which whatever is sent is well published. *)
Lemma trigger_new_trace (w : world) (u : pystr) (σ : machine) :
  ∃ tail,
    trace (trigger w u σ).1
    = trace σ ++ LogTriggered u (map m_clean (default [] (user_history σ !! u)))
              :: map CallPredict
                   (map m_clean (default [] (user_history σ !! u)))
              ++ tail
    ∧ Forall (fun o => is_CallPredict o = false ∧ well_published o) tail.
Proof.
  rewrite <- getitem_fst. unfold trigger.
  destruct (getitem u (user_history σ)) as [b h]. cbn [fst].
  destruct (gather w 0 (map m_clean b)) as [rs|e].
  - assert (Hs : well_published (Send RESULT_TOPIC (aggregate_result rs u))).
    { split; [done|]. exists u. apply aggregate_result_user_id. }
    destruct (send_and_wait w _ _).
    + exists [Send RESULT_TOPIC (aggregate_result rs u);
              LogSent u (aggregate_result rs u)].
      simpl. split; [by rewrite <- !(assoc_L (++))|].
      repeat (apply Forall_cons_2; [split; [done|first [exact Hs|done]]|]);
        apply Forall_nil_2.
    + exists [Send RESULT_TOPIC (aggregate_result rs u)].
      simpl. split; [by rewrite <- !(assoc_L (++))|].
      repeat (apply Forall_cons_2; [split; [done|first [exact Hs|done]]|]);
        apply Forall_nil_2.
  - exists [LogPredictionFailed e].
    simpl. split; [by rewrite <- !(assoc_L (++))|].
    repeat (apply Forall_cons_2; [split; [done|first [exact Hs|done]]|]);
        apply Forall_nil_2.
Qed.

Lemma trigger_extends_well_published (w : world) (u : pystr) (σ : machine) :
  extends_by well_published σ (trigger w u σ).1.
Proof.
  destruct (trigger_new_trace w u σ) as (tail & E & Htail).
  eexists. split; [exact E|]. constructor; [done|]. apply Forall_app. split.
  - apply Forall_forall. intros o Ho.
    apply list_elem_of_fmap in Ho as (t & -> & _). done.
  - eapply Forall_impl; [exact Htail|]. by intros o [_ ?].
Qed.

Lemma preload_record_extends (d : delivery) (σ : machine) :
  extends_by (fun o => is_backfill_log o = true) σ (preload_record d σ).1.
Proof.
  unfold preload_record.
  destruct (value (msg d)) as [[| | | | | |rec]|e];
    try apply extends_by_refl.
  - destruct (in_WATCH_CHAT_IDS _) as [watched|]; [|apply extends_by_refl].
    destruct (_ && _); simpl; [|apply extends_by_emit; by repeat constructor].
    destruct (is_same_local_day _ _) as [[|]|]; simpl.
    + eapply extends_by_trans; [apply extends_by_history_append|].
      apply extends_by_emit. by repeat constructor.
    + apply extends_by_emit. by repeat constructor.
    + apply extends_by_refl.
  - destruct (except_JSONDecodeError_TypeError e); [|apply extends_by_refl].
    apply extends_by_emit. by repeat constructor.
Qed.

Lemma process_extends_well_published (d : delivery) (σ : machine) :
  extends_by well_published σ (process d σ).1.
Proof.
  unfold process.
  destruct (value (msg d)) as [[| | | | | |rec]|e];
    try apply extends_by_refl.
  - destruct (in_WATCH_CHAT_IDS _) as [watched|]; [|apply extends_by_refl].
    destruct (_ || _); [apply extends_by_refl|].
    destruct (is_same_local_day _ _) as [[|]|]; [| |apply extends_by_refl];
      destruct (contains _ _); simpl;
      try apply extends_by_refl; try apply extends_by_history_append.
    + eapply extends_by_trans; [apply extends_by_history_append|].
      apply trigger_extends_well_published.
    + apply trigger_extends_well_published.
  - destruct (except_JSONDecodeError_TypeError e); [|apply extends_by_refl].
    apply extends_by_emit. by repeat constructor.
Qed.

(** *** Counting the scoring calls *)

Lemma calls_launched_app (tr1 tr2 : list output) :
  calls_launched (tr1 ++ tr2) = (calls_launched tr1 + calls_launched tr2)%nat.
Proof. unfold calls_launched. by rewrite filter_app, length_app. Qed.

Lemma calls_launched_none (tr : list output) :
  Forall (fun o => is_CallPredict o = false) tr → calls_launched tr = 0%nat.
Proof.
  unfold calls_launched. induction 1 as [|o tr Ho _ IH]; [done|].
  rewrite filter_cons_False; [done|]. by rewrite Ho.
Qed.

Lemma calls_launched_CallPredict (texts : list pystr) :
  calls_launched (map (@CallPredict num) texts) = length texts.
Proof.
  unfold calls_launched. induction texts as [|t texts IH]; [done|].
  cbn [map]. rewrite filter_cons_True by done. cbn [length]. by rewrite IH.
Qed.

Lemma preload_history_extends (polls : list batch) (σ : machine) :
  extends_by (fun o => is_backfill_log o = true) σ (preload_history polls σ).1.
Proof.
  apply (preload_history_rel (extends_by _)).
  - apply extends_by_refl.
  - apply extends_by_trans.
  - apply preload_record_extends.
  - intros σ0. apply extends_by_emit. by repeat constructor.
Qed.

(** X5. The backfill only fills the history: whatever the backlog holds,
    mentions of the bot included, [preload_history] adds to the trace
    nothing but its own log lines - no trigger, no scoring call, no
    publication. *)
Theorem backfill_never_triggers (polls : list batch) (σ : machine) :
  ∃ new,
    trace (preload_history polls σ).1 = trace σ ++ new
    ∧ Forall (fun o => is_backfill_log o = true) new
    ∧ calls_launched new = 0%nat
    ∧ ∀ topic agg, Send topic agg ∉ new.
Proof.
  destruct (preload_history_extends polls σ) as (new & E & F).
  exists new. split; [done|]. split; [done|]. split.
  - apply calls_launched_none.
    eapply Forall_impl; [exact F|]. by intros [].
  - intros topic agg Hin. rewrite Forall_forall in F.
    by specialize (F _ Hin).
Qed.

(** X6. Every record that a run of [main] hands to the producer goes to
    [RESULT_TOPIC] and has a "user_id" entry that is a str. *)
Theorem published_records_name_a_user (polls : list batch)
    (evs : list delivery) (topic : pystr) (agg : dict aggval) :
  Send topic agg ∈ trace (main polls evs).1 →
  topic = RESULT_TOPIC ∧ ∃ u, dict_get agg (py "user_id") = Some (Str u).
Proof.
  assert (H : extends_by well_published empty_machine (main polls evs).1).
  { apply (main_rel (extends_by well_published)).
    - apply extends_by_refl.
    - apply extends_by_trans.
    - intros d σ. destruct (preload_record_extends d σ) as (new & E & F).
      exists new. split; [done|]. eapply Forall_impl; [exact F|].
      by intros [].
    - apply process_extends_well_published.
    - intros o σ Ho. apply extends_by_emit. constructor; [|done].
      destruct Ho as [Ho| ->]; [|done]. by destruct o. }
  destruct H as (new & E & F). simpl in E. rewrite E. intros Hin.
  rewrite Forall_forall in F. exact (F _ Hin).
Qed.

(** *** What happens to the windows *)

Lemma getitem_snd_lookup_ne (u u' : pystr) (h : gmap pystr (list pystr)) :
  u ≠ u' → (getitem u h).2 !! u' = h !! u'.
Proof.
  intros Hne. unfold getitem. destruct (h !! u); [done|].
  simpl. by rewrite lookup_insert_ne.
Qed.

Lemma getitem_snd_is_Some (u u' : pystr) (h : gmap pystr (list pystr)) :
  is_Some (h !! u') → is_Some ((getitem u h).2 !! u').
Proof.
  intros H. unfold getitem. destruct (h !! u) eqn:E; [done|]. simpl.
  destruct (decide (u = u')) as [<-|Hne].
  - rewrite E in H. by destruct H.
  - by rewrite lookup_insert_ne.
Qed.

Lemma history_append_lookup_other (u u' text : pystr) (σ : machine) :
  u ≠ u' →
  user_history (history_append u text σ) !! u' = user_history σ !! u'.
Proof.
  intros Hne. unfold history_append, getitem.
  destruct (user_history σ !! u); simpl; by rewrite !lookup_insert_ne.
Qed.

Lemma history_append_is_Some (u u' text : pystr) (σ : machine) :
  is_Some (user_history σ !! u') →
  is_Some (user_history (history_append u text σ) !! u').
Proof.
  intros H. destruct (decide (u = u')) as [<-|Hne].
  - rewrite history_append_lookup. by eexists.
  - by rewrite history_append_lookup_other.
Qed.

(** X7. The pipeline reads the history and never edits it: after
    [trigger], whether scoring or publishing succeeded or not, every user
    has the texts buffered before (the user it ran for has, at most, gained
    an empty window). *)
Theorem trigger_keeps_buffered_texts (w : world) (u u' : pystr)
    (σ : machine) :
  default [] (user_history (trigger w u σ).1 !! u')
  = default [] (user_history σ !! u')
  ∧ (u ≠ u' → user_history (trigger w u σ).1 !! u' = user_history σ !! u')
  ∧ is_Some (user_history (trigger w u σ).1 !! u).
Proof.
  rewrite trigger_history. split; [apply getitem_snd_lookup|].
  split; [apply getitem_snd_lookup_ne|].
  unfold getitem. destruct (user_history σ !! u) eqn:E; simpl.
  - by rewrite E.
  - by rewrite lookup_insert_eq.
Qed.

(** X8. A record only touches the window of its own user: in the backfill
    and in the live loop, the window of every other user is after the
    record what it was before. *)
Theorem record_touches_only_its_user (d : delivery) (σ : machine)
    (rec : dict json) (u : pystr) :
  value (msg d) = Loaded (JObj rec) →
  u ≠ rec_user_id rec →
  user_history (preload_record d σ).1 !! u = user_history σ !! u
  ∧ user_history (process d σ).1 !! u = user_history σ !! u.
Proof.
  intros Hv Hu. unfold preload_record, process. rewrite Hv.
  destruct (in_WATCH_CHAT_IDS _) as [watched|]; [|done].
  split.
  - destruct (_ && _); [|done].
    destruct (is_same_local_day _ _) as [[|]|]; [|done..].
    simpl. by rewrite history_append_lookup_other.
  - destruct (_ || _); [done|].
    destruct (is_same_local_day _ _) as [[|]|]; [| |done];
      destruct (contains _ _); simpl;
      rewrite ?trigger_history, ?getitem_snd_lookup_ne,
        ?history_append_lookup_other; done.
Qed.

Lemma preload_record_is_Some (d : delivery) (σ : machine) (u : pystr) :
  is_Some (user_history σ !! u) →
  is_Some (user_history (preload_record d σ).1 !! u).
Proof.
  intros H. unfold preload_record.
  destruct (value (msg d)) as [[| | | | | |rec]|e]; try done.
  - destruct (in_WATCH_CHAT_IDS _) as [watched|]; [|done].
    destruct (_ && _); [|done].
    destruct (is_same_local_day _ _) as [[|]|]; [|done..].
    simpl. by apply history_append_is_Some.
  - by destruct (except_JSONDecodeError_TypeError e).
Qed.

Lemma process_is_Some (d : delivery) (σ : machine) (u : pystr) :
  is_Some (user_history σ !! u) →
  is_Some (user_history (process d σ).1 !! u).
Proof.
  intros H. unfold process.
  destruct (value (msg d)) as [[| | | | | |rec]|e]; try done.
  - destruct (in_WATCH_CHAT_IDS _) as [watched|]; [|done].
    destruct (_ || _); [done|].
    destruct (is_same_local_day _ _) as [[|]|]; [| |done];
      destruct (contains _ _); simpl;
      rewrite ?trigger_history;
      auto using history_append_is_Some, getitem_snd_is_Some.
  - by destruct (except_JSONDecodeError_TypeError e).
Qed.

(** X9. A window never expires: a user who has a window keeps one through
    the rest of the backfill and through the live loop, however these
    end. *)
Theorem windows_are_never_removed (polls : list batch) (evs : list delivery)
    (σ : machine) (u : pystr) :
  is_Some (user_history σ !! u) →
  is_Some (user_history (preload_history polls σ).1 !! u)
  ∧ is_Some (user_history (consume_and_process evs σ).1 !! u).
Proof.
  intros H. split.
  - revert H.
    apply (preload_history_rel
             (fun σ σ' => is_Some (user_history σ !! u) →
                          is_Some (user_history σ' !! u))); auto.
    intros d σ0. apply preload_record_is_Some.
  - unfold consume_and_process.
    assert (H' : is_Some (user_history (emit [LogRealtimeStarted] σ) !! u))
      by done.
    revert H'.
    apply (for_each_rel
             (fun σ σ' => is_Some (user_history σ !! u) →
                          is_Some (user_history σ' !! u))); auto.
    intros d σ0. apply process_is_Some.
Qed.

(** X10. Both phases admit alike: for any record and any history, the
    texts buffered for each user after [preload_history]'s body are those
    buffered after the body of the live loop - the live loop differs only by
    the pipeline it may run, which buffers nothing. *)
Theorem backfill_and_live_admit_alike (d : delivery) (σ : machine)
    (u : pystr) :
  default [] (user_history (preload_record d σ).1 !! u)
  = default [] (user_history (process d σ).1 !! u).
Proof.
  unfold preload_record, process.
  destruct (value (msg d)) as [[| | | | | |rec]|e]; try done.
  destruct (in_WATCH_CHAT_IDS _) as [[|]|]; try done. simpl.
  destruct (isinstance_str (rec_text rec)); [|done]. simpl.
  destruct (is_same_local_day _ _) as [[|]|]; [| |done];
    destruct (contains _ _); simpl;
    by rewrite ?trigger_history, ?getitem_snd_lookup.
Qed.

(** X11. The fan-out of one record is bounded by the window: when every
    window holds at most 10 texts, as it does throughout a run, the body of
    the live loop launches at most 10 scoring calls. *)
Theorem fan_out_is_bounded (d : delivery) (σ : machine) :
  bounded (user_history σ) →
  (calls_launched (drop (length (trace σ)) (trace (process d σ).1)) ≤ 10)%nat.
Proof.
  intros Hb.
  assert (Hnone : ∀ σ' : machine, trace σ' = trace σ →
            (calls_launched (drop (length (trace σ)) (trace σ')) ≤ 10)%nat).
  { intros σ' ->. rewrite drop_all. unfold calls_launched. simpl. lia. }
  assert (Htrig : ∀ (u : pystr) (σ1 : machine),
            trace σ1 = trace σ → bounded (user_history σ1) →
            (calls_launched (drop (length (trace σ))
                               (trace (trigger (env d) u σ1).1)) ≤ 10)%nat).
  { intros u σ1 Htr Hb1.
    destruct (trigger_new_trace (env d) u σ1) as (tail & -> & Htail).
    rewrite Htr, drop_app_length.
    change (LogTriggered u ?cb :: ?l) with ([LogTriggered u cb] ++ l).
    rewrite !calls_launched_app, calls_launched_CallPredict, length_map.
    rewrite (calls_launched_none tail)
      by (eapply Forall_impl; [exact Htail|]; by intros o [? _]).
    destruct (getitem_bounded u _ Hb1) as [Hlen _].
    rewrite getitem_fst in Hlen. unfold calls_launched, maxlen in *.
    simpl. lia. }
  unfold process.
  destruct (value (msg d)) as [[| | | | | |rec]|e]; try (by apply Hnone).
  - destruct (in_WATCH_CHAT_IDS _) as [watched|]; [|by apply Hnone].
    destruct (_ || _); [by apply Hnone|].
    destruct (is_same_local_day _ _) as [[|]|]; [| |by apply Hnone];
      destruct (contains _ _); simpl.
    + apply Htrig; [apply history_append_trace|].
      by apply history_append_bounded.
    + apply Hnone, history_append_trace.
    + by apply Htrig.
    + by apply Hnone.
  - destruct (except_JSONDecodeError_TypeError e); [|by apply Hnone].
    simpl. rewrite drop_app_length. unfold calls_launched. simpl. lia.
Qed.

(** X12. The first poll that brings no record ends the backfill: a batch
    without partitions, or whose partitions are all empty, after polls that
    each brought something, makes [preload_history] stop there, and the
    polls after it are never read. *)
Theorem backfill_stops_at_first_empty_poll (polls later : list batch)
    (b : batch) (σ : machine) :
  Forall (fun p => any_values p = true) polls →
  Forall (fun tp_msgs : nat * list delivery => tp_msgs.2 = []) b →
  preload_history (polls ++ b :: later) σ = preload_history polls σ.
Proof.
  intros Hpolls Hb.
  assert (Hempty : any_values b = false).
  { unfold any_values. apply not_true_is_false. intros Hex.
    apply existsb_exists in Hex as (tp & Hin & Htp).
    rewrite Forall_forall in Hb. apply list_elem_of_In, Hb in Hin.
    by rewrite Hin in Htp. }
  revert σ. induction Hpolls as [|p polls Hp _ IH]; intros σ; simpl.
  - by rewrite Hempty.
  - rewrite Hp. simpl.
    destruct (for_each _ p σ) as [σ' [|e]]; [apply IH|done].
Qed.

(** *** What stops a loop and what does not *)

(** X13. A payload that parses to JSON that is not an object (a list, a
    str, a number, true, false, null) is not skipped: [rec.get] raises
    [AttributeError] outside the [try], which leaves either loop with the
    history and the trace as they were and the following records unread. *)
Theorem non_object_payload_aborts (d : delivery) (σ : machine) (v : json)
    (later : list delivery) :
  value (msg d) = Loaded v →
  (∀ rec, v ≠ JObj rec) →
  for_each preload_record (d :: later) σ = (σ, Propagate AttributeError)
  ∧ for_each process (d :: later) σ = (σ, Propagate AttributeError).
Proof.
  intros Hv Hobj. cbn [for_each]. unfold preload_record, process. rewrite Hv.
  destruct v; try done. by destruct (Hobj members).
Qed.

(** X14. A record whose chat_id is a list or an object cannot be looked up
    in [WATCH_CHAT_IDS]: the [TypeError] of the membership test is raised
    outside the [try], so it is not caught, and it leaves either loop with
    the history and the trace as they were. *)
Theorem unhashable_chat_id_aborts (d : delivery) (σ : machine)
    (rec : dict json) (later : list delivery) :
  value (msg d) = Loaded (JObj rec) →
  (∃ items, dict_get rec (py "chat_id") = Some (JArr items))
  ∨ (∃ members, dict_get rec (py "chat_id") = Some (JObj members)) →
  for_each preload_record (d :: later) σ = (σ, Propagate TypeError)
  ∧ for_each process (d :: later) σ = (σ, Propagate TypeError).
Proof.
  intros Hv Hc. cbn [for_each]. unfold preload_record, process. rewrite Hv.
  unfold rec_chat_id. by destruct Hc as [[x ->]|[x ->]].
Qed.

(** X15. A failure of the producer is not contained: when a record
    triggers the pipeline (the day test has returned), the scoring calls
    all return and [send_and_wait] raises, the exception leaves the live
    loop after the [Send], without the "sent" log, and the records that
    follow are not processed. *)
Theorem producer_failure_is_fatal (d : delivery) (σ : machine)
    (rec : dict json) (text : pystr) (same_day : bool)
    (results : list ScoreMap) (e : exn) (later : list delivery) :
  value (msg d) = Loaded (JObj rec) →
  in_WATCH_CHAT_IDS (rec_chat_id rec) = Reply true →
  dict_get rec (py "message") = Some (JStr text) →
  (∃ a b, text = a ++ BOT_MENTION ++ b) →
  is_same_local_day (env d) (timestamp (msg d)) = Reply same_day →
  let uid := rec_user_id rec in
  let σ1 := if same_day then history_append uid text σ else σ in
  let clean_batch := map m_clean (getitem uid (user_history σ1)).1 in
  let agg := aggregate_result results uid in
  gather (env d) 0 clean_batch = Reply results →
  send_and_wait (env d) RESULT_TOPIC agg = Failure e →
  ∃ σ',
    for_each process (d :: later) σ = (σ', Propagate e)
    ∧ trace σ' = trace σ ++ LogTriggered uid clean_batch
                         :: map CallPredict clean_batch
                         ++ [Send RESULT_TOPIC agg].
Proof.
  intros Hv Hw Ht Hm Hday. cbv zeta. intros Hg Hs. cbn [for_each].
  rewrite (process_triggering zero add repr d σ rec text same_day
             Hv Hw Ht Hm Hday).
  set (σ1 := if same_day then _ else σ) in *.
  assert (Htr : trace σ1 = trace σ).
  { unfold σ1. destruct same_day; [|done]. apply history_append_trace. }
  unfold trigger.
  destruct (getitem (rec_user_id rec) (user_history σ1)) as [b h].
  cbn [fst] in Hg, Hs. rewrite Hg, Hs. eexists. split; [done|].
  simpl. by rewrite Htr, <- (assoc_L (++)).
Qed.


(** X17. A watched str message that does not mention the bot, and on
    which the day test returns, is at most admitted: the live loop appends
    it to the user's window when the test answers that it is of the current
    local day, prints nothing, calls nothing, publishes nothing and goes
    on. *)
Theorem plain_message_is_only_admitted (d : delivery) (σ : machine)
    (rec : dict json) (text : pystr) (same_day : bool) :
  value (msg d) = Loaded (JObj rec) →
  in_WATCH_CHAT_IDS (rec_chat_id rec) = Reply true →
  dict_get rec (py "message") = Some (JStr text) →
  ¬ (∃ a b, text = a ++ BOT_MENTION ++ b) →
  is_same_local_day (env d) (timestamp (msg d)) = Reply same_day →
  process d σ
  = (if same_day then history_append (rec_user_id rec) text σ else σ, Next)
  ∧ trace (process d σ).1 = trace σ.
Proof.
  intros Hv Hw Ht Hm Hday. unfold process. rewrite Hv, Hw.
  unfold rec_text. rewrite Ht. simpl. rewrite Hday.
  destruct (contains BOT_MENTION text) eqn:Ec.
  { destruct Hm. by apply contains_spec. }
  split; [done|]. destruct same_day; [|done].
  apply history_append_trace.
Qed.

Lemma for_each_Next {A} (body : A → machine → machine * flow) (l : list A)
    (σ : machine) :
  Forall (fun a => ∀ σ, (body a σ).2 = Next) l →
  (for_each body l σ).2 = Next.
Proof.
  intros H. revert σ. induction H as [|a l Ha _ IH]; intros σ; [done|].
  simpl. specialize (Ha σ). destruct (body a σ) as [σ' f]. simpl in Ha.
  subst f. apply IH.
Qed.

Lemma preload_record_Next (d : delivery) (σ : machine) :
  (preload_record d σ).2 = Next ↔ harmless d = true.
Proof.
  unfold preload_record, harmless.
  destruct (value (msg d)) as [[| | | | | |rec]|e]; try done.
  - destruct (in_WATCH_CHAT_IDS _) as [watched|]; [|done].
    simpl. destruct watched, (isinstance_str (rec_text rec)); simpl;
      try done.
    by destruct (is_same_local_day _ _) as [[|]|].
  - by destruct (except_JSONDecodeError_TypeError e).
Qed.

Lemma trigger_Next (w : world) (u : pystr) (σ : machine) :
  producer_acks w → (trigger w u σ).2 = Next.
Proof.
  intros Hack. unfold trigger.
  destruct (getitem u (user_history σ)) as [b h].
  destruct (gather w 0 (map m_clean b)) as [rs|e]; [|done].
  by destruct (Hack RESULT_TOPIC (aggregate_result rs u)) as [x ->].
Qed.

Lemma process_Next (d : delivery) (σ : machine) :
  harmless d = true → producer_acks (env d) → (process d σ).2 = Next.
Proof.
  unfold process, harmless. intros Hh Hack.
  destruct (value (msg d)) as [[| | | | | |rec]|e]; try done.
  - destruct (in_WATCH_CHAT_IDS _) as [watched|]; [|done]. simpl.
    destruct watched, (isinstance_str (rec_text rec)); simpl in *; try done.
    destruct (is_same_local_day _ _) as [same_day|]; [|done].
    destruct (contains _ _); [|done]. by apply trigger_Next.
  - by rewrite Hh.
Qed.

(** X18. The backfill runs to its end on every backlog in which each
    payload either fails with [JSONDecodeError] or [TypeError], or parses to
    a JSON object with a hashable chat_id on which the day test, where it
    is reached, returns: no such record, watched or not, admitted or not,
    makes [preload_history] raise. *)
Theorem backfill_completes_on_harmless_records (polls : list batch)
    (σ : machine) :
  Forall (fun b : batch =>
            Forall (fun tp_msgs : nat * list delivery =>
                      Forall (fun d => harmless d = true) tp_msgs.2) b)
         polls →
  (preload_history polls σ).2 = Next.
Proof.
  intros H. revert σ. induction H as [|b polls Hb _ IH]; intros σ; [done|].
  simpl. destruct (any_values b); [|done]. simpl.
  assert (Hn : (for_each (fun tp_msgs : nat * list delivery =>
                            for_each preload_record tp_msgs.2) b σ).2 = Next).
  { apply for_each_Next. eapply Forall_impl; [exact Hb|].
    intros tp Htp σ0. apply for_each_Next.
    eapply Forall_impl; [exact Htp|]. intros d Hd σ1.
    by apply preload_record_Next. }
  destruct (for_each _ b σ) as [σ' f]. simpl in Hn. subst f. apply IH.
Qed.

(** X19. With scoring replies that are score maps (JSON objects of
    numbers), the live loop goes through every such record as long as the
    producer acknowledges: failures of the translation and scoring services
    never stop it. *)
Theorem live_loop_survives_harmless_records (evs : list delivery)
    (σ : machine) :
  Forall (fun d => harmless d = true ∧ producer_acks (env d)) evs →
  (consume_and_process evs σ).2 = Next.
Proof.
  intros H. unfold consume_and_process. apply for_each_Next.
  eapply Forall_impl; [exact H|]. intros d [Hh Hack] σ0.
  by apply process_Next.
Qed.

(** X20. Conversely a record that lets the body of either loop end
    normally is harmless: in the backfill the records on which
    [preload_history] raises are exactly the others. *)
Theorem only_harmless_records_pass (d : delivery) (σ : machine) :
  ((preload_record d σ).2 = Next ↔ harmless d = true)
  ∧ ((process d σ).2 = Next → harmless d = true).
Proof.
  split; [apply preload_record_Next|].
  unfold process, harmless.
  destruct (value (msg d)) as [[| | | | | |rec]|e]; try done.
  - destruct (in_WATCH_CHAT_IDS _) as [watched|]; [|done]. simpl.
    destruct watched, (isinstance_str (rec_text rec)); simpl; try done.
    by destruct (is_same_local_day _ _).
  - by destruct (except_JSONDecodeError_TypeError e).
Qed.

(** *** The scoring calls of one trigger *)

Lemma gather_Reply_iff (w : world) (n : nat) (texts : list pystr)
    (results : list ScoreMap) :
  gather w n texts = Reply results
  ↔ length results = length texts
    ∧ ∀ i t, texts !! i = Some t →
        ∃ r, call_predict w (n + i) t = Reply r ∧ results !! i = Some r.
Proof.
  split; [apply gather_Reply|].
  revert n results. induction texts as [|t0 texts IH]; intros n results [Hl H].
  - by destruct results.
  - destruct results as [|r0 results]; [done|]. cbn [gather].
    destruct (H 0%nat t0 eq_refl) as (r & Hr & [= <-]).
    rewrite Nat.add_0_r in Hr. rewrite Hr.
    rewrite (IH (S n) results); [done|]. split; [by injection Hl|].
    intros i t Hi. destruct (H (S i) t Hi) as (r' & Hr' & Hi').
    exists r'. by rewrite Nat.add_succ_comm.
Qed.

(** X21. [gather] returns exactly when every call returns, and then with
    one score map for each text, in the order of the texts: the [i]-th
    result is what the [i]-th call returned. *)
Theorem gather_returns_results_in_order (w : world) (texts : list pystr)
    (results : list ScoreMap) :
  gather w 0 texts = Reply results
  ↔ length results = length texts
    ∧ ∀ i t, texts !! i = Some t →
        ∃ r, call_predict w i t = Reply r ∧ results !! i = Some r.
Proof. apply gather_Reply_iff. Qed.

(** X22. What reaches the scoring service: a text detected as "en" is
    posted as it is, without asking for a translation; any other detection
    result, a missing one included, makes the translation be posted, and
    the empty text when the translator's reply has no "translatedText". *)
Theorem call_predict_posts (w : world) (i : nat) (text : pystr)
    (lang tr : option pystr) :
  detect_language w i text = Reply lang →
  translate w i text = Reply tr →
  call_predict w i text
  = post_predict w i (if decide (lang = Some (py "en")) then text
                      else default [] tr)
  ∧ (lang = Some (py "en") →
     ∀ w' : world,
       detect_language w' = detect_language w →
       post_predict w' = post_predict w →
       call_predict w' i text = post_predict w i text).
Proof.
  intros Hd Ht. unfold call_predict, translate_to_english. split.
  - rewrite Hd, Ht. destruct (decide (lang = Some (py "en"))) as [He|He].
    + by rewrite bool_decide_true.
    + by rewrite bool_decide_false.
  - intros -> w' Hd' Hp'. unfold call_predict, translate_to_english.
    by rewrite Hd', Hp', Hd.
Qed.

(** *** The aggregate *)

Lemma dict_set_keys {V} (d : dict V) (k k' : pystr) (v : V) :
  k' ∈ (dict_set d k v).*1 ↔ k' = k ∨ k' ∈ d.*1.
Proof.
  induction d as [|[k0 v0] d IH]; simpl.
  - rewrite list_elem_of_singleton, elem_of_nil. tauto.
  - destruct (decide (k = k0)) as [->|Hne]; simpl;
      rewrite !elem_of_cons; [tauto|]. rewrite IH. tauto.
Qed.

Lemma dict_set_NoDup {V} (d : dict V) (k : pystr) (v : V) :
  NoDup d.*1 → NoDup (dict_set d k v).*1.
Proof.
  induction d as [|[k0 v0] d IH]; simpl; intros Hnd.
  - repeat constructor. apply not_elem_of_nil.
  - apply NoDup_cons in Hnd as [Hk0 Hnd].
    destruct (decide (k = k0)) as [->|Hne]; simpl.
    + by apply NoDup_cons.
    + apply NoDup_cons. split; [|by apply IH].
      rewrite dict_set_keys. intros [?|?]; [congruence|done].
Qed.

Lemma fold_agg_add_NoDup (r : ScoreMap) (agg : dict num) :
  NoDup agg.*1 → NoDup (fold_left agg_add r agg).*1.
Proof.
  revert agg. induction r as [|kv r IH]; intros agg Hnd; [done|].
  simpl. apply IH. by apply dict_set_NoDup.
Qed.

Lemma fold_agg_add_keys (r : ScoreMap) (agg : dict num) (k : pystr) :
  k ∈ (fold_left agg_add r agg).*1 ↔ k ∈ agg.*1 ∨ k ∈ r.*1.
Proof.
  revert agg. induction r as [|[k0 v0] r IH]; intros agg; simpl.
  - rewrite elem_of_nil. tauto.
  - rewrite IH. unfold agg_add at 1. simpl.
    rewrite dict_set_keys, elem_of_cons. tauto.
Qed.

Lemma aggregate_NoDup (results : list ScoreMap) : NoDup (aggregate results).*1.
Proof.
  unfold aggregate.
  assert (H : NoDup (@nil (pystr * num)).*1) by constructor.
  revert H. generalize (@nil (pystr * num)).
  induction results as [|r results IH]; intros agg Hnd; [done|].
  simpl. apply IH. by apply fold_agg_add_NoDup.
Qed.

Lemma aggregate_keys (results : list ScoreMap) (k : pystr) :
  k ∈ (aggregate results).*1 ↔ ∃ r, r ∈ results ∧ k ∈ r.*1.
Proof.
  unfold aggregate.
  assert (H : ∀ agg : dict num,
            k ∈ (fold_left (fun agg r => fold_left agg_add r agg)
                   results agg).*1
            ↔ k ∈ agg.*1 ∨ ∃ r, r ∈ results ∧ k ∈ r.*1).
  { induction results as [|r results IH]; intros agg; simpl.
    - split; [by left|]. intros [?|(r & Hr & _)]; [done|].
      by apply elem_of_nil in Hr.
    - rewrite IH, fold_agg_add_keys. split.
      + intros [[?|?]|(r' & Hr' & ?)]; [by left|right..].
        * exists r. split; [apply elem_of_cons; by left|done].
        * exists r'. split; [apply elem_of_cons; by right|done].
      + intros [?|(r' & Hr' & ?)]; [by left; left|].
        apply elem_of_cons in Hr' as [->|Hr']; [by left; right|].
        right. by exists r'. }
  rewrite H. simpl. rewrite elem_of_nil. split; [by intros [[]|?]|by right].
Qed.

(** X23. The published dict is a dict: its keys are distinct, whatever
    the score maps, and they are "user_id" together with every field that
    occurs in some score map of the trigger, and nothing else. *)
Theorem aggregate_result_keys (results : list ScoreMap) (uid k : pystr) :
  NoDup (aggregate_result results uid).*1
  ∧ (k ∈ (aggregate_result results uid).*1
     ↔ k = py "user_id" ∨ ∃ r, r ∈ results ∧ k ∈ r.*1).
Proof.
  unfold aggregate_result.
  assert (Hk : (map (fun kv : pystr * num => (kv.1, Num kv.2))
                  (aggregate results)).*1 = (aggregate results).*1).
  { generalize (aggregate results). intros l.
    induction l as [|[k0 v0] l IH]; [done|]. simpl. f_equal. exact IH. }
  split.
  - apply dict_set_NoDup. rewrite Hk. apply aggregate_NoDup.
  - by rewrite dict_set_keys, Hk, aggregate_keys.
Qed.

Lemma fold_left_add_Permutation (vs vs' : list num) (a : num) :
  (∀ x y z, add (add x y) z = add x (add y z)) →
  (∀ x y, add x y = add y x) →
  vs ≡ₚ vs' → fold_left add vs a = fold_left add vs' a.
Proof.
  intros Hassoc Hcomm Hp. revert a.
  induction Hp as [|x l l' _ IH|x y l|l1 l2 l3 _ IH1 _ IH2]; intros a; simpl.
  - done.
  - apply IH.
  - f_equal. by rewrite !Hassoc, (Hcomm y x).
  - by rewrite IH1.
Qed.

(** X24. When the addition of the scores is associative and commutative,
    as on integers, the sums do not depend on the order in which the texts
    were buffered: permuting the score maps of a trigger changes no entry
    of the published dict. *)
Theorem aggregate_ignores_order (results results' : list ScoreMap)
    (uid k : pystr) :
  (∀ x y z, add (add x y) z = add x (add y z)) →
  (∀ x y, add x y = add y x) →
  Forall well_formed_dict results →
  results ≡ₚ results' →
  dict_get (aggregate_result results' uid) k
  = dict_get (aggregate_result results uid) k.
Proof.
  intros Hassoc Hcomm Hwf Hp.
  assert (Hwf' : Forall well_formed_dict results') by by rewrite <- Hp.
  destruct (decide (k = py "user_id")) as [->|Hk].
  - by rewrite !aggregate_result_user_id.
  - rewrite !(aggregate_result_get zero add) by done.
    assert (Hv : field_values k results ≡ₚ field_values k results')
      by (unfold field_values; by rewrite Hp).
    destruct (field_values k results) as [|v vs],
      (field_values k results') as [|v' vs'].
    + done.
    + by apply Permutation_nil_cons in Hv.
    + symmetry in Hv. by apply Permutation_nil_cons in Hv.
    + do 2 f_equal. symmetry.
      exact (fold_left_add_Permutation _ _ zero Hassoc Hcomm Hv).
Qed.

(** *** The day test *)

(** X25. A record that passes [is_same_local_day] is less than a day from
    the clock, local time against local time; so when the zone has the same
    offset at both instants, a record stamped 24 hours or more before or
    after now is never admitted. *)
Theorem same_local_day_is_within_a_day (w : world) (ts_ms : Z) :
  is_same_local_day w ts_ms = Reply true →
  Z.abs ((ts_ms + utcoffset_ms w ts_ms)
         - (now_ms w + utcoffset_ms w (now_ms w))) < 86400000
  ∧ (utcoffset_ms w ts_ms = utcoffset_ms w (now_ms w) →
     Z.abs (ts_ms - now_ms w) < 86400000).
Proof.
  unfold is_same_local_day, local_date_of_timestamp, local_date_of_now.
  destruct (negb (representable ts_ms)); [done|].
  destruct (negb (_ && _)); [done|].
  destruct (negb (representable _)); [done|].
  destruct (clock_error w); [done|].
  unfold local_day. intros [= H%Z.eqb_eq].
  set (a := ts_ms + utcoffset_ms w ts_ms) in *.
  set (b := now_ms w + utcoffset_ms w (now_ms w)) in *.
  assert (Ha := Z.div_mod a 86400000 ltac:(lia)).
  assert (Hb := Z.div_mod b 86400000 ltac:(lia)).
  assert (Ha' := Z.mod_pos_bound a 86400000 ltac:(lia)).
  assert (Hb' := Z.mod_pos_bound b 86400000 ltac:(lia)).
  assert (Hab : Z.abs (a - b) < 86400000) by lia.
  split; [done|]. intros Ho. unfold a, b in Hab. lia.
Qed.

(** *** A harmful record in the backlog *)

Lemma for_each_Propagate {A} (body : A → machine → machine * flow)
    (l : list A) (a : A) (σ : machine) :
  a ∈ l →
  (∀ σ, ∃ e, (body a σ).2 = Propagate e) →
  ∃ e, (for_each body l σ).2 = Propagate e.
Proof.
  intros Hin Ha. revert σ.
  induction l as [|a0 l IH]; intros σ; [by apply elem_of_nil in Hin|].
  simpl. destruct (body a0 σ) as [σ' [|e]] eqn:E; [|by exists e].
  apply elem_of_cons in Hin as [->|Hin]; [|by apply IH].
  destruct (Ha σ) as [e He]. by rewrite E in He.
Qed.

Lemma preload_record_Propagate (d : delivery) (σ : machine) :
  harmless d = false → ∃ e, (preload_record d σ).2 = Propagate e.
Proof.
  intros Hh. destruct (preload_record d σ).2 as [|e] eqn:E; [|by exists e].
  apply preload_record_Next in E. congruence.
Qed.

(** X28. One harmful record in the backlog keeps the process from going
    live: if, before any empty poll, some poll holds in some partition a
    record that is not harmless (a payload that is not UTF-8, JSON that is
    not an object, an unhashable chat_id, a timestamp on which the day test
    raises), [main] ends with an exception and the live loop is never
    started. *)
Theorem harmful_backlog_record_prevents_live_loop
    (polls later : list batch) (b : batch) (tp : nat)
    (msgs : list delivery) (d : delivery) (evs : list delivery) :
  Forall (fun p => any_values p = true) polls →
  (tp, msgs) ∈ b →
  d ∈ msgs →
  harmless d = false →
  ∃ e, (main (polls ++ b :: later) evs).2 = Propagate e
       ∧ LogRealtimeStarted ∉ trace (main (polls ++ b :: later) evs).1.
Proof.
  intros Hpolls Htp Hd Hh.
  assert (Hb : ∀ σ, ∃ e,
            (for_each (fun tp_msgs : nat * list delivery =>
                         for_each preload_record tp_msgs.2) b σ).2
            = Propagate e).
  { intros σ. apply (for_each_Propagate _ b (tp, msgs)); [done|].
    intros σ0. simpl. apply (for_each_Propagate _ msgs d); [done|].
    intros σ1. by apply preload_record_Propagate. }
  assert (Hany : any_values b = true).
  { unfold any_values. apply existsb_exists. exists (tp, msgs).
    split; [by apply list_elem_of_In|]. simpl.
    destruct msgs; [by apply elem_of_nil in Hd|done]. }
  assert (Hpre : ∀ σ, ∃ e,
            (preload_history (polls ++ b :: later) σ).2 = Propagate e).
  { induction Hpolls as [|p polls Hp _ IH]; intros σ; simpl.
    - rewrite Hany. simpl. destruct (Hb σ) as [e He].
      destruct (for_each _ b σ) as [σ' f]. simpl in He. subst f.
      by exists e.
    - rewrite Hp. simpl. destruct (for_each _ p σ) as [σ' [|e]];
        [apply IH|by exists e]. }
  unfold main.
  destruct (Hpre empty_machine) as [e He].
  pose proof (preload_history_extends (polls ++ b :: later) empty_machine)
    as (new & E & F).
  destruct (preload_history _ empty_machine) as [σ' f]. simpl in *. subst f.
  exists e. split; [done|]. simpl. rewrite E. intros Hin.
  rewrite Forall_forall in F. by specialize (F _ Hin).
Qed.

(** *** A timestamp that [datetime] does not represent *)

(** X30. A record that reaches the day test (watched chat, str message or
    none) with a timestamp outside the years 1 to 9999 makes
    [datetime.fromtimestamp] raise [ValueError]; the day test is called
    outside any [try], so the exception leaves either loop with the history
    and the trace as they were: nothing is admitted, no pipeline runs, and
    the records that follow are not processed. *)
Theorem unrepresentable_timestamp_aborts (d : delivery) (σ : machine)
    (rec : dict json) (later : list delivery) :
  value (msg d) = Loaded (JObj rec) →
  in_WATCH_CHAT_IDS (rec_chat_id rec) = Reply true →
  isinstance_str (rec_text rec) = true →
  representable (timestamp (msg d)) = false →
  for_each preload_record (d :: later) σ = (σ, Propagate ValueError)
  ∧ for_each process (d :: later) σ = (σ, Propagate ValueError).
Proof.
  intros Hv Hw Ht Hr. cbn [for_each]. unfold preload_record, process.
  rewrite Hv, Hw, Ht. simpl.
  unfold is_same_local_day, local_date_of_timestamp. by rewrite Hr.
Qed.

End LoopProperties.

(** ** Cleaning and naming *)

Lemma skip_spaces_suffix (s : pystr) : skip_spaces s `suffix_of` s.
Proof.
  induction s as [|c s IH]; simpl; [done|].
  destruct (is_space c); [|done]. by apply suffix_cons_r.
Qed.

(** X26. Cleaning only ever cuts at the front: the cleaned text is a
    suffix of the text, and a text that cleaning changes starts with the
    mention (so that it is itself a triggering message). *)
Theorem m_clean_is_a_suffix (m : pystr) :
  m_clean m `suffix_of` m
  ∧ (m_clean m ≠ m → BOT_MENTION `prefix_of` m ∧ contains BOT_MENTION m = true).
Proof.
  unfold m_clean. destruct (strip_prefix BOT_MENTION m) as [rest|] eqn:E.
  - apply strip_prefix_Some in E. split.
    + etrans; [apply skip_spaces_suffix|]. rewrite E. by apply suffix_app_r.
    + intros _. split; [by exists rest|].
      apply contains_spec. by exists [], rest.
  - split; [done|]. by intros [].
Qed.

Lemma py_inj (s1 s2 : string) : py s1 = py s2 → s1 = s2.
Proof.
  unfold py. intros H.
  rewrite <- (string_of_list_ascii_of_string s1),
    <- (string_of_list_ascii_of_string s2). f_equal.
  revert H. generalize (list_ascii_of_string s1) (list_ascii_of_string s2).
  intros l1. induction l1 as [|a l1 IH]; intros [|b l2]; simpl; try done.
  intros [= Hab Hl]. f_equal; [|by apply IH].
  by rewrite <- (ascii_N_embedding a), <- (ascii_N_embedding b), Hab.
Qed.

(** X27. Two integer user ids never share a window: [str] gives different
    ints different names, whatever [repr] is. (An int and the str of its
    digits do get the same name.) *)
Theorem int_user_ids_do_not_collide (repr : json → pystr) (a b : Z) :
  a ≠ b → py_str repr (JInt a) ≠ py_str repr (JInt b).
Proof.
  intros Hne. simpl. unfold str_of_int. intros H%py_inj. apply Hne.
  assert (Hi : Z.to_int a = Z.to_int b).
  { pose proof (NilEmpty.isi (Z.to_int a)) as Ha.
    pose proof (NilEmpty.isi (Z.to_int b)) as Hb.
    rewrite H in Ha. rewrite Ha in Hb. by injection Hb. }
  by rewrite <- (DecimalZ.of_to a), <- (DecimalZ.of_to b), Hi.
Qed.

(** X29. The watched chat is recognised by number only: a chat_id passes
    the membership test exactly when it is the int -4714765877 or a float
    equal to it; the same digits sent as a str, like any other value that
    can be hashed, are not watched. *)
Theorem watched_chat_ids_are_numbers (v : json) :
  in_WATCH_CHAT_IDS v = Reply true
  ↔ v = JInt (-4714765877)
    ∨ ∃ f, v = JFloat f ∧ float_eq_int f (-4714765877) = true.
Proof.
  unfold in_WATCH_CHAT_IDS, WATCH_CHAT_IDS. simpl. split.
  - destruct v as [|[|]|z|f|s|l|m]; simpl; try done.
    + rewrite orb_false_r. intros [= H%Z.eqb_eq]. left. by subst.
    + rewrite orb_false_r. intros [= H]. right. by exists f.
  - intros [->|(f & -> & H)]; simpl; [done|]. by rewrite H.
Qed.

(** ** The further properties at concrete records *)

Lemma get_msk_connection_info_returns_witness :
  get_msk_connection_info aws_example
  = inr (JStr (py "bot"), JStr (py "pw"), [py "b-1.msk:9196"; py "b-2.msk:9196"]).
Proof.
  apply get_msk_connection_info_returns. eexists _, _, _.
  repeat split; try reflexivity. done.
Defined.

Lemma main_keeps_windows_bounded_witness :
  (length (map plain_text (seq 3 9) ++ [mention_text]) ≤ 10)%nat.
Proof.
  apply (main_keeps_windows_bounded 0 Z.add repr_opaque
           [[(0%nat, [d_plain 1; d_plain 2])]]
           (map d_plain (seq 3 9) ++ [d_mention_today]) (py "42")).
  vm_compute. reflexivity.
Defined.

Lemma published_records_name_a_user_witness :
  RESULT_TOPIC = RESULT_TOPIC
  ∧ ∃ u, dict_get [(py "pos", Num 1); (py "user_id", Str (py "42"))]
           (py "user_id") = Some (@Str Z u).
Proof.
  apply (published_records_name_a_user 0 Z.add repr_opaque [] [d_mention_today]).
  apply list_elem_of_In. vm_compute. do 4 right. left. reflexivity.
Defined.

Lemma record_touches_only_its_user_witness :
  user_history (preload_record repr_opaque d_no_user_id
                  (history_append (py "42") (py "kept") init)).1 !! py "42"
  = Some [py "kept"]
  ∧ user_history (process 0 Z.add repr_opaque d_no_user_id
                    (history_append (py "42") (py "kept") init)).1 !! py "42"
    = Some [py "kept"].
Proof.
  apply (record_touches_only_its_user 0 Z.add repr_opaque d_no_user_id
           (history_append (py "42") (py "kept") init) rec_no_user_id (py "42"));
    [reflexivity|]. intros H. vm_compute in H. discriminate.
Defined.

Lemma windows_are_never_removed_witness :
  is_Some (user_history
             (preload_history repr_opaque [[(0%nat, [d_no_user_id])]]
                (history_append (py "42") (py "kept") init)).1 !! py "42")
  ∧ is_Some (user_history
               (consume_and_process 0 Z.add repr_opaque [d_no_user_id]
                  (history_append (py "42") (py "kept") init)).1 !! py "42").
Proof.
  apply (windows_are_never_removed 0 Z.add repr_opaque).
  by exists [py "kept"].
Defined.

Lemma fan_out_is_bounded_witness :
  (calls_launched
     (drop (length (trace init))
        (trace (process 0%Z Z.add repr_opaque d_mention_today init).1)) ≤ 10)%nat.
Proof.
  apply (fan_out_is_bounded 0 Z.add repr_opaque d_mention_today init).
  apply map_Forall_empty.
Defined.

Lemma backfill_stops_at_first_empty_poll_witness :
  preload_history repr_opaque
    ([[(0%nat, [d_plain 1])]] ++ [(0%nat, []); (1%nat, [])]
       :: [[(0%nat, [d_plain 2])]]) init
  = preload_history repr_opaque [[(0%nat, [d_plain 1])]] init.
Proof.
  apply (backfill_stops_at_first_empty_poll repr_opaque);
    repeat constructor.
Defined.

Lemma non_object_payload_aborts_witness :
  for_each (preload_record repr_opaque) [d_json_list; d_plain 1] init
  = (init, Propagate AttributeError)
  ∧ for_each (process 0 Z.add repr_opaque) [d_json_list; d_plain 1] init
    = (init, Propagate AttributeError).
Proof.
  apply (non_object_payload_aborts 0 Z.add repr_opaque d_json_list init
           (JArr [JInt 1])); [reflexivity|]. intros rec H. discriminate.
Defined.

Lemma unhashable_chat_id_aborts_witness :
  for_each (preload_record repr_opaque) [d_list_chat; d_plain 1] init
  = (init, Propagate TypeError)
  ∧ for_each (process 0 Z.add repr_opaque) [d_list_chat; d_plain 1] init
    = (init, Propagate TypeError).
Proof.
  apply (unhashable_chat_id_aborts 0 Z.add repr_opaque d_list_chat init
           rec_list_chat); [reflexivity|]. left. by eexists.
Defined.

Lemma producer_failure_is_fatal_witness :
  ∃ σ',
    for_each (process 0 Z.add repr_opaque) [d_mention_unacked; d_plain 1] init
    = (σ', Propagate KafkaError)
    ∧ trace σ'
      = [LogTriggered (py "42") [py "rate these"];
         CallPredict (py "rate these");
         Send RESULT_TOPIC [(py "pos", Num 1); (py "user_id", Str (py "42"))]].
Proof.
  apply (producer_failure_is_fatal 0 Z.add repr_opaque d_mention_unacked init
           rec_mention mention_text true [[(py "pos", 1)]] KafkaError
           [d_plain 1]);
    try reflexivity.
  exact mention_text_mentions.
Defined.


Lemma plain_message_is_only_admitted_witness :
  process 0 Z.add repr_opaque (d_plain 1) init
  = (history_append (py "42") (plain_text 1) init, Next)
  ∧ trace (process 0 Z.add repr_opaque (d_plain 1) init).1 = [].
Proof.
  apply (plain_message_is_only_admitted 0 Z.add repr_opaque (d_plain 1) init
           [(py "chat_id", JInt (-4714765877)); (py "user_id", JInt 42);
            (py "message", JStr (plain_text 1))] (plain_text 1) true);
    try reflexivity.
  intros H%contains_spec. vm_compute in H. discriminate.
Defined.

Lemma backfill_completes_on_harmless_records_witness :
  (preload_history repr_opaque
     [[(0%nat, [d_plain 1; d_unwatched; d_no_message])]] init).2 = Next.
Proof.
  apply (backfill_completes_on_harmless_records repr_opaque).
  repeat constructor.
Defined.

Lemma live_loop_survives_harmless_records_witness :
  (consume_and_process 0 Z.add repr_opaque
     [d_plain 1; d_mention_failing; d_mention_today] init).2 = Next.
Proof.
  apply (live_loop_survives_harmless_records 0 Z.add repr_opaque).
  repeat constructor; intros topic agg; by exists tt.
Defined.

Lemma call_predict_posts_witness :
  call_predict (french_world now0) 0 (py "bonjour") = Reply [(py "len", 0)].
Proof.
  apply (call_predict_posts (french_world now0) 0 (py "bonjour")
           (Some (py "fr")) None); reflexivity.
Defined.

Lemma aggregate_ignores_order_witness :
  dict_get (aggregate_result 0 Z.add (rev two_score_maps) (py "42")) (py "pos")
  = dict_get (aggregate_result 0 Z.add two_score_maps (py "42")) (py "pos").
Proof.
  apply (aggregate_ignores_order 0 Z.add two_score_maps (rev two_score_maps)).
  - intros x y z. symmetry. apply Z.add_assoc.
  - apply Z.add_comm.
  - repeat (apply Forall_cons; split); [| |apply Forall_nil];
      unfold well_formed_dict; simpl; repeat constructor;
      rewrite ?elem_of_cons, ?elem_of_nil; intros H; vm_compute in H;
      intuition discriminate.
  - apply Permutation_rev.
Defined.

Lemma same_local_day_is_within_a_day_witness :
  Z.abs ((now0 - 3600000 + 0) - (now0 + 0)) < 86400000
  ∧ (0 = 0 → Z.abs (now0 - 3600000 - now0) < 86400000).
Proof.
  apply (same_local_day_is_within_a_day (quiet_world now0) (now0 - 3600000)).
  reflexivity.
Defined.

Lemma int_user_ids_do_not_collide_witness :
  py_str repr_opaque (JInt 42) ≠ py_str repr_opaque (JInt 43).
Proof. apply int_user_ids_do_not_collide. discriminate. Defined.

Lemma harmful_backlog_record_prevents_live_loop_witness :
  ∃ e,
    (main 0 Z.add repr_opaque
       ([[(0%nat, [d_plain 1])]]
          ++ [(0%nat, [d_plain 2]); (1%nat, [d_plain 3; d_not_utf8])]
          :: []) [d_mention_today]).2 = Propagate e
    ∧ LogRealtimeStarted
      ∉ trace (main 0 Z.add repr_opaque
                 ([[(0%nat, [d_plain 1])]]
                    ++ [(0%nat, [d_plain 2]); (1%nat, [d_plain 3; d_not_utf8])]
                    :: []) [d_mention_today]).1.
Proof.
  apply (harmful_backlog_record_prevents_live_loop 0 Z.add repr_opaque
           [[(0%nat, [d_plain 1])]] []
           [(0%nat, [d_plain 2]); (1%nat, [d_plain 3; d_not_utf8])]
           1%nat [d_plain 3; d_not_utf8] d_not_utf8 [d_mention_today]).
  - repeat constructor.
  - apply elem_of_cons. right. apply elem_of_cons. by left.
  - apply elem_of_cons. right. apply elem_of_cons. by left.
  - reflexivity.
Defined.

Lemma unrepresentable_timestamp_aborts_witness :
  for_each (preload_record repr_opaque)
    [d_mention_year_10000; d_plain 1] init
  = (init, Propagate ValueError)
  ∧ for_each (process 0 Z.add repr_opaque)
      [d_mention_year_10000; d_plain 1] init
    = (init, Propagate ValueError).
Proof.
  apply (unrepresentable_timestamp_aborts 0 Z.add repr_opaque
           d_mention_year_10000 init rec_mention); reflexivity.
Defined.
